(** * The dex cache of the ART runtime: slot pairs, direct-mapped caches,
      call-site binding and the java.lang.DexCache native bindings.

    Sources embedded here:
    - runtime/mirror/dex_cache.h          (DexCachePair, the cache size constants,
                                           the declarations of the DexCache methods);
    - runtime/native/java_lang_DexCache.cc (the four native bindings).

    The bodies of the DexCache methods live in dex_cache-inl.h, which is not
    among these sources; they are modelled from the specification and marked
    as such. *)

From Stdlib Require Import ZArith Lia Bool String.
From stdpp Require Import base list.
Local Open Scope Z_scope.

(** ** Build configuration

    [DCHECK] is compiled in only in debug builds and [size_t] has the width of
    a pointer of the target; both come from headers (base/logging.h,
    base/enums.h) that are not among the embedded sources, so
    they are parameters of the whole development. *)

Inductive PointerSize := k32 | k64.

Definition PointerBits (p : PointerSize) : Z :=
  match p with k32 => 32 | k64 => 64 end.

Class BuildConfig := {
  kEnableDChecks : bool;
  kRuntimePointerSize : PointerSize
}.

(** ** Outcomes of a call and the state-and-abort monad

    A failed [CHECK] or [DCHECK] aborts the process.  A computation over a state
    [S] returns its outcome together with the state reached, so that what had
    been written before an abort stays visible. *)

Inductive failure := CheckFailure | DCheckFailure.

Inductive outcome (A : Type) :=
| Returns (a : A)
| Aborts (f : failure).
Arguments Returns {A} a.
Arguments Aborts {A} f.

Definition M (S A : Type) : Type := S -> outcome A * S.

#[export] Instance M_ret {S} : MRet (M S) := fun A a s => (Returns a, s).

#[export] Instance M_bind {S} : MBind (M S) := fun A B k m s =>
  match m s with
  | (Returns a, s') => k a s'
  | (Aborts f, s') => (Aborts f, s')
  end.

Definition get {S} : M S S := fun s => (Returns s, s).
Definition put {S} (s : S) : M S unit := fun _ => (Returns tt, s).
Definition modify {S} (f : S -> S) : M S unit := fun s => (Returns tt, f s).
Definition abort {S A} (f : failure) : M S A := fun s => (Aborts f, s).

Definition result {S A} (m : M S A) (s : S) : outcome A := fst (m s).
Definition state_after {S A} (m : M S A) (s : S) : S := snd (m s).

(** Run [m] on a component of the state and write the component back. *)
Definition zoom {S T A} (proj : S -> T) (upd : T -> S -> S) (m : M T A) : M S A :=
  fun s => let (r, t') := m (proj s) in (r, upd t' s).

(** Call a method on a temporary copy ([std::atomic::load] returns the pair by
    value): the copy is dropped after the call. *)
Definition on_copy {S T A} (t : T) (m : M T A) : M S A :=
  fun s => (fst (m t), s).

Definition CHECK {S} (cond : bool) : M S unit :=
  if cond then mret tt else abort CheckFailure.

Definition DCHECK `{BuildConfig} {S} (cond : bool) : M S unit :=
  if kEnableDChecks then (if cond then mret tt else abort DCheckFailure)
  else mret tt.

(** ** Machine integers *)

Definition is_uint32 (z : Z) : Prop := 0 <= z < 2 ^ 32.
Definition is_jint (z : Z) : Prop := - 2 ^ 31 <= z < 2 ^ 31.

Definition to_uint32 (z : Z) : Z := z mod 2 ^ 32.

(** [static_cast<size_t>(i)] of a [jint]: reduction modulo 2^width. *)
Definition static_cast_size_t `{BuildConfig} (i : Z) : Z :=
  i mod 2 ^ PointerBits kRuntimePointerSize.

(** ** Object references

    A [GcRoot<T>] holds one reference; the null reference is 0. *)

Definition ObjRef := Z.
Definition nullptr : ObjRef := 0.
Definition IsNull (r : ObjRef) : bool := r =? 0.
Definition Read (r : ObjRef) : ObjRef := r.

(** ** DexCachePair (dex_cache.h, lines 44-92) *)

Record DexCachePair := MkDexCachePair {
  object : ObjRef;
  index : Z
}.

#[export] Instance DexCachePair_inhabited : Inhabited DexCachePair :=
  populate (MkDexCachePair nullptr 0).

Definition InvalidIndexForSlot (slot : Z) : Z :=
  if slot =? 0 then 1 else 0.

(** [Initialize] stores the first element of the array it is given. *)
Definition Initialize : M (list DexCachePair) unit :=
  let first_elem := MkDexCachePair nullptr (InvalidIndexForSlot 0) in
  modify (fun dex_cache => <[0%nat := first_elem]> dex_cache).

Definition GetObjectForIndex `{BuildConfig} (idx : Z) : M DexCachePair ObjRef :=
  this ← get;
  if negb (idx =? index this) then mret nullptr
  else
    DCHECK (negb (IsNull (object this)));;
    mret (Read (object this)).

(** ** Cache sizes (dex_cache.h, lines 109-135) *)

Definition kDexCacheTypeCacheSize : Z := 1024.
Definition kDexCacheStringCacheSize : Z := 1024.
Definition kDexCacheMethodTypeCacheSize : Z := 1024.

Definition StaticTypeSize : Z := kDexCacheTypeCacheSize.
Definition StaticStringSize : Z := kDexCacheStringCacheSize.
Definition StaticMethodTypeSize : Z := kDexCacheMethodTypeCacheSize.

(** ** SlotPair: install and clear of one slot

    The stores into a slot are made by the DexCache methods of
    dex_cache-inl.h, which is not among the embedded sources. *)

Module SlotPair.

(** Modelled from the spec: the body of the slot store is missing; section
    4.1 has [Install(logical_index, value)] overwrite the pair with
    [{value, logical_index}] in one atomic store, always succeeding. *)
Definition Install (logical_index : Z) (value : ObjRef) : M DexCachePair unit :=
  put (MkDexCachePair value logical_index).

(** Modelled from the spec: the body of the slot clear is missing; section
    4.1 makes it a compare-then-clear on the stored index, and INV1, the state
    machine of section 4.4 (POPULATED to EMPTY via ClearIfMatching) and P3
    make the cleared slot empty: a null object with the empty index of the
    slot, which the header gives as [InvalidIndexForSlot slot]. *)
Definition Clear (slot logical_index : Z) : M DexCachePair unit :=
  this ← get;
  if index this =? logical_index
  then put (MkDexCachePair nullptr (InvalidIndexForSlot slot))
  else mret tt.

End SlotPair.

(** ** FixedCache: a direct-mapped array of slots *)

Module FixedCache.

(** The slot array: [slots[C]] of pairs. *)
Definition load (slots : list DexCachePair) (slot : Z) : DexCachePair :=
  slots !!! Z.to_nat slot.

Definition store (slot : Z) (p : DexCachePair) (slots : list DexCachePair)
  : list DexCachePair :=
  <[Z.to_nat slot := p]> slots.

(** One atomic read-modify-write of a slot. *)
Definition at_slot {A} (slot : Z) (m : M DexCachePair A) : M (list DexCachePair) A :=
  zoom (fun slots => load slots slot) (store slot) m.

Section Capacity.
Context `{BuildConfig}.
Variable C : Z.

(** Modelled from the spec: the slot mappings [StringSlotIndex],
    [TypeSlotIndex] and [MethodTypeSlotIndex] are declared in dex_cache.h
    (lines 397-399) without a body; section 4.2 gives
    physical slot = logical_index & (C-1). *)
Definition SlotIndex (logical_index : Z) : Z :=
  Z.land logical_index (C - 1).

(** Modelled from the spec: the cache lookup is missing; section 4.2
    delegates to the slot's TryGetForIndex, which is [GetObjectForIndex]
    on an atomic snapshot of the pair. *)
Definition Lookup (logical_index : Z) : M (list DexCachePair) ObjRef :=
  slots ← get;
  on_copy (load slots (SlotIndex logical_index)) (GetObjectForIndex logical_index).

(** Modelled from the spec: the cache insert is missing; section 4.2
    delegates to Install on the physical slot. *)
Definition Insert (logical_index : Z) (value : ObjRef) : M (list DexCachePair) unit :=
  at_slot (SlotIndex logical_index) (SlotPair.Install logical_index value).

(** Modelled from the spec: the cache clear is missing; section 4.2
    delegates to Clear on the physical slot. *)
Definition ClearIfMatching (logical_index : Z) : M (list DexCachePair) unit :=
  at_slot (SlotIndex logical_index)
    (SlotPair.Clear (SlotIndex logical_index) logical_index).

(** Modelled from the spec: the allocation of the slot arrays is missing;
    sections 4.1 and 6 have every slot zero-filled to [{null, 0}]. *)
Definition ZeroFilled : list DexCachePair :=
  replicate (Z.to_nat C) (MkDexCachePair nullptr 0).

(** Modelled from the spec: the initialisation of a cache is missing;
    sections 4.1 and 6 run the slot-zero initialisation, which is
    [DexCachePair::Initialize], on the zero-filled array. *)
Definition Fresh : list DexCachePair :=
  state_after Initialize ZeroFilled.

End Capacity.

End FixedCache.

(** ** DexCache (dex_cache.h, lines 104-432) *)

(** What the bindings read of the defining dex file (dex_file.h is outside the
    embedded sources). *)
Record DexFile := {
  NumTypeIds : Z;
  NumStringIds : Z;
  StringByTypeIdx : Z -> string
}.

Record DexCache := MkDexCache {
  dex_ : ObjRef;
  location_ : ObjRef;
  dex_file_ : DexFile;
  resolved_call_sites_ : list ObjRef;
  resolved_fields_ : list Z;
  resolved_method_types_ : list DexCachePair;
  resolved_methods_ : list Z;
  resolved_types_ : list DexCachePair;
  strings_ : list DexCachePair
}.

Definition GetDexFile (this : DexCache) : DexFile := dex_file_ this.
Definition GetStrings (this : DexCache) : list DexCachePair := strings_ this.
Definition GetResolvedTypes (this : DexCache) : list DexCachePair := resolved_types_ this.
Definition GetResolvedMethodTypes (this : DexCache) : list DexCachePair :=
  resolved_method_types_ this.
Definition GetResolvedCallSites (this : DexCache) : list ObjRef :=
  resolved_call_sites_ this.

Definition NumStrings (this : DexCache) : Z := Z.of_nat (length (strings_ this)).
Definition NumResolvedTypes (this : DexCache) : Z := Z.of_nat (length (resolved_types_ this)).
Definition NumResolvedMethodTypes (this : DexCache) : Z :=
  Z.of_nat (length (resolved_method_types_ this)).
Definition NumResolvedCallSites (this : DexCache) : Z :=
  Z.of_nat (length (resolved_call_sites_ this)).

Definition SetStrings (strings : list DexCachePair) (this : DexCache) : DexCache :=
  MkDexCache (dex_ this) (location_ this) (dex_file_ this) (resolved_call_sites_ this)
    (resolved_fields_ this) (resolved_method_types_ this) (resolved_methods_ this)
    (resolved_types_ this) strings.

Definition SetResolvedTypes (resolved_types : list DexCachePair) (this : DexCache)
  : DexCache :=
  MkDexCache (dex_ this) (location_ this) (dex_file_ this) (resolved_call_sites_ this)
    (resolved_fields_ this) (resolved_method_types_ this) (resolved_methods_ this)
    resolved_types (strings_ this).

Definition SetResolvedMethodTypes (resolved_method_types : list DexCachePair)
    (this : DexCache) : DexCache :=
  MkDexCache (dex_ this) (location_ this) (dex_file_ this) (resolved_call_sites_ this)
    (resolved_fields_ this) resolved_method_types (resolved_methods_ this)
    (resolved_types_ this) (strings_ this).

Definition SetResolvedCallSites (resolved_call_sites : list ObjRef) (this : DexCache)
  : DexCache :=
  MkDexCache (dex_ this) (location_ this) (dex_file_ this) resolved_call_sites
    (resolved_fields_ this) (resolved_method_types_ this) (resolved_methods_ this)
    (resolved_types_ this) (strings_ this).

Section DexCacheMethods.
Context `{BuildConfig}.

(** Modelled from the spec: [StringSlotIndex] is declared in dex_cache.h
    (line 397) without a body; section 4.2 gives the physical slot as
    logical_index & (C-1), C the capacity of the string cache. *)
Definition StringSlotIndex (string_idx : Z) : Z :=
  FixedCache.SlotIndex kDexCacheStringCacheSize string_idx.

(** Modelled from the spec: [TypeSlotIndex] is declared in dex_cache.h
    (line 398) without a body; as [StringSlotIndex], for the type cache. *)
Definition TypeSlotIndex (type_idx : Z) : Z :=
  FixedCache.SlotIndex kDexCacheTypeCacheSize type_idx.

(** Modelled from the spec: [MethodTypeSlotIndex] is declared in dex_cache.h
    (line 399) without a body; as [StringSlotIndex], for the method type
    cache. *)
Definition MethodTypeSlotIndex (proto_idx : Z) : Z :=
  FixedCache.SlotIndex kDexCacheMethodTypeCacheSize proto_idx.

(** Modelled from the spec: the body of [GetResolvedString] (declared at line
    226) is missing; section 4.4 delegates to the lookup of the string
    cache. *)
Definition GetResolvedString (string_idx : Z) : M DexCache ObjRef :=
  zoom GetStrings SetStrings (FixedCache.Lookup kDexCacheStringCacheSize string_idx).

(** Modelled from the spec: the body of [SetResolvedString] (declared at line
    229) is missing; sections 4.2 and 4.4 make it the insert of the string
    cache. *)
Definition SetResolvedString (string_idx : Z) (resolved : ObjRef) : M DexCache unit :=
  zoom GetStrings SetStrings
    (FixedCache.Insert kDexCacheStringCacheSize string_idx resolved).

(** Modelled from the spec: the body of [ClearString] (declared at line 234)
    is missing; section 4.2 makes it the ClearIfMatching of the string
    cache. *)
Definition ClearString (string_idx : Z) : M DexCache unit :=
  zoom GetStrings SetStrings
    (FixedCache.ClearIfMatching kDexCacheStringCacheSize string_idx).

(** Modelled from the spec: the body of [GetResolvedType] (declared at line
    236) is missing; section 4.4 delegates to the lookup of the type cache. *)
Definition GetResolvedType (type_idx : Z) : M DexCache ObjRef :=
  zoom GetResolvedTypes SetResolvedTypes
    (FixedCache.Lookup kDexCacheTypeCacheSize type_idx).

(** Modelled from the spec: the body of [SetResolvedType] (declared at line
    238) is missing; sections 4.2 and 4.4 make it the insert of the type cache,
    with no validation of its own. *)
Definition SetResolvedType (type_idx : Z) (resolved : ObjRef) : M DexCache unit :=
  zoom GetResolvedTypes SetResolvedTypes
    (FixedCache.Insert kDexCacheTypeCacheSize type_idx resolved).

(** Modelled from the spec: the body of [ClearResolvedType] (declared at line
    241) is missing; section 4.2 makes it the ClearIfMatching of the type
    cache. *)
Definition ClearResolvedType (type_idx : Z) : M DexCache unit :=
  zoom GetResolvedTypes SetResolvedTypes
    (FixedCache.ClearIfMatching kDexCacheTypeCacheSize type_idx).

(** Modelled from the spec: the body of [GetResolvedMethodType] (declared at
    line 259) is missing; section 4.4 delegates to the lookup of the method
    type cache. *)
Definition GetResolvedMethodType (proto_idx : Z) : M DexCache ObjRef :=
  zoom GetResolvedMethodTypes SetResolvedMethodTypes
    (FixedCache.Lookup kDexCacheMethodTypeCacheSize proto_idx).

(** Modelled from the spec: the body of [SetResolvedMethodType] (declared at
    line 261) is missing; sections 4.2 and 4.4 make it the insert of the method
    type cache. *)
Definition SetResolvedMethodType (proto_idx : Z) (resolved : ObjRef) : M DexCache unit :=
  zoom GetResolvedMethodTypes SetResolvedMethodTypes
    (FixedCache.Insert kDexCacheMethodTypeCacheSize proto_idx resolved).

(** Modelled from the spec: the bounds of the call-site array are not tested
    in the embedded sources; the array has one slot per call-site index (section 4.3)
    and an index outside it is a fatal assertion (section 7). *)
Definition in_call_site_bounds (call_site_idx : Z) (this : DexCache) : bool :=
  (0 <=? call_site_idx) && (call_site_idx <? NumResolvedCallSites this).

(** Modelled from the spec: the body of [GetResolvedCallSite] (declared at
    line 264) is missing; section 4.3 makes it a direct indexed read. *)
Definition GetResolvedCallSite (call_site_idx : Z) : M DexCache ObjRef :=
  this ← get;
  CHECK (in_call_site_bounds call_site_idx this);;
  mret (Read (GetResolvedCallSites this !!! Z.to_nat call_site_idx)).

(** Modelled from the spec: the body of [SetResolvedCallSite] (declared at
    line 271) is missing; section 4.4 has it atomically compare the slot's
    current value against null and either install [candidate] and return it,
    or discard [candidate] and return the value already installed.  The
    whole body is one atomic step. *)
Definition SetResolvedCallSite (call_site_idx : Z) (candidate : ObjRef)
  : M DexCache ObjRef :=
  this ← get;
  CHECK (in_call_site_bounds call_site_idx this);;
  let target := GetResolvedCallSites this !!! Z.to_nat call_site_idx in
  if IsNull target then
    put (SetResolvedCallSites
           (<[Z.to_nat call_site_idx := candidate]> (GetResolvedCallSites this)) this);;
    mret candidate
  else
    mret (Read target).

(** Modelled from the spec: [InitializeDexCache] is declared in dex_cache.h
    (line 142) without a body; section 6 has it allocate and zero-fill all
    sub-caches and section 4.1 run the slot-zero initialisation of each
    fixed cache. *)
Definition InitializeDexCache (dex_file : DexFile)
    (num_call_sites num_fields num_methods : nat) : DexCache :=
  MkDexCache nullptr nullptr dex_file
    (replicate num_call_sites nullptr)
    (replicate num_fields 0)
    (FixedCache.Fresh kDexCacheMethodTypeCacheSize)
    (replicate num_methods 0)
    (FixedCache.Fresh kDexCacheTypeCacheSize)
    (FixedCache.Fresh kDexCacheStringCacheSize).

End DexCacheMethods.

(** ** The native bindings of java.lang.DexCache (java_lang_DexCache.cc) *)

(** The collaborators the bindings call into: the class table of the class
    linker (class_table.h) and the descriptor test of mirror::Class; their
    code is not among the embedded sources, so the bindings are modelled for any
    behaviour of theirs. *)
Class ClassLinker := {
  ClassTable : Type;
  (** [table->TryInsert(t)]: the class the table holds for the descriptor of
      [t] after the call, and the table after the call. *)
  TryInsert : ObjRef -> ClassTable -> ObjRef * ClassTable;
  (** [t->DescriptorEquals(descriptor)]. *)
  DescriptorEquals : ObjRef -> string -> bool
}.

(** What a binding can reach: the decoded dex cache and the class table
    [FindClassTable] returns for it ([None] for a null table). *)
Record Runtime `{ClassLinker} := MkRuntime {
  dex_cache : DexCache;
  class_table : option ClassTable
}.

Section NativeBindings.
Context `{BuildConfig} `{ClassLinker}.

Definition FindClassTable (w : Runtime) : option ClassTable := class_table w.

Definition with_dex_cache (d : DexCache) (w : Runtime) : Runtime :=
  MkRuntime _ d (class_table w).

Definition with_class_table (t : ClassTable) (w : Runtime) : Runtime :=
  MkRuntime _ (dex_cache w) (Some t).

(** A call of a DexCache method on the decoded [dex_cache]. *)
Definition call {A} (m : M DexCache A) : M Runtime A :=
  zoom dex_cache with_dex_cache m.

(** [soa.Decode] and [soa.AddLocalReference] convert between a JNI handle and
    the reference it stands for; null goes to null. *)
Definition Decode (handle : ObjRef) : ObjRef := handle.
Definition AddLocalReference (r : ObjRef) : ObjRef := r.

(** [dex::TypeIndex(i)] and [dex::StringIndex(i)]: the index as the unsigned
    value the cache stores ([uint32_t index] of the pair). *)
Definition TypeIndex (i : Z) : Z := to_uint32 i.
Definition StringIndex (i : Z) : Z := to_uint32 i.

Definition DexCache_getResolvedType (type_index : Z) : M Runtime ObjRef :=
  w ← get;
  CHECK (static_cast_size_t type_index <? NumTypeIds (GetDexFile (dex_cache w)));;
  r ← call (GetResolvedType (TypeIndex type_index));
  mret (AddLocalReference r).

Definition DexCache_getResolvedString (string_index : Z) : M Runtime ObjRef :=
  w ← get;
  CHECK (static_cast_size_t string_index <? NumStringIds (GetDexFile (dex_cache w)));;
  r ← call (GetResolvedString (StringIndex string_index));
  mret (AddLocalReference r).

Definition DexCache_setResolvedType (type_index : Z) (type : ObjRef) : M Runtime unit :=
  w ← get;
  let dex_file := GetDexFile (dex_cache w) in
  CHECK (static_cast_size_t type_index <? NumTypeIds dex_file);;
  let t := Decode type in
  if negb (IsNull t)
     && DescriptorEquals t (StringByTypeIdx dex_file (TypeIndex type_index))
  then
    match FindClassTable w with
    | Some table =>
        let (existing, table') := TryInsert t table in
        modify (with_class_table table');;
        if existing =? t
        then call (SetResolvedType (TypeIndex type_index) t)
        else mret tt
    | None => mret tt
    end
  else mret tt.

Definition DexCache_setResolvedString (string_index : Z) (string : ObjRef)
  : M Runtime unit :=
  w ← get;
  CHECK (static_cast_size_t string_index <? NumStringIds (GetDexFile (dex_cache w)));;
  let s := Decode string in
  if negb (IsNull s)
  then call (SetResolvedString (StringIndex string_index) s)
  else mret tt.

End NativeBindings.

(** ** The slot invariant (the comment of DexCachePair, lines 47-64)

    A slot of a cache of capacity [C] at position [slot] is empty when its
    object is null and its index is the invalid index of that position, and
    populated when its object is non-null and its index is a logical index
    that maps to that position. *)

Definition slot_empty (slot : Z) (p : DexCachePair) : bool :=
  IsNull (object p) && (index p =? InvalidIndexForSlot slot).

Definition slot_populated (C slot : Z) (p : DexCachePair) : bool :=
  negb (IsNull (object p))
  && (0 <=? index p) && (index p <? 2 ^ 32)
  && (FixedCache.SlotIndex C (index p) =? slot).

Definition slot_ok (C slot : Z) (p : DexCachePair) : bool :=
  slot_empty slot p || slot_populated C slot p.

(** A well-formed cache has [C] slots, each of which satisfies the invariant. *)
Definition has_capacity (C : Z) (slots : list DexCachePair) : Prop :=
  length slots = Z.to_nat C.

Definition cache_ok (C : Z) (slots : list DexCachePair) : Prop :=
  has_capacity C slots /\
  forall slot, 0 <= slot < C -> slot_ok C slot (FixedCache.load slots slot) = true.

(** ** Competing calls of SetResolvedCallSite

    Each call is one atomic step, so a set of competing calls on one index runs
    as some sequence of them; [race] runs the candidates in the order in which
    their steps take effect and collects what each call returns. *)

Fixpoint race (call_site_idx : Z) (candidates : list ObjRef)
  : M DexCache (list ObjRef) :=
  match candidates with
  | [] => mret []
  | candidate :: rest =>
      r ← SetResolvedCallSite call_site_idx candidate;
      rs ← race call_site_idx rest;
      mret (r :: rs)
  end.

(** The value of the slot after each call of the sequence. *)
Fixpoint history (call_site_idx : Z) (candidates : list ObjRef)
    (this : DexCache) : list ObjRef :=
  match candidates with
  | [] => []
  | candidate :: rest =>
      let this' := state_after (SetResolvedCallSite call_site_idx candidate) this in
      (GetResolvedCallSites this' !!! Z.to_nat call_site_idx)
        :: history call_site_idx rest this'
  end.

(** How often the value changes along a list of successive slot values. *)
Fixpoint installs (before : ObjRef) (after : list ObjRef) : nat :=
  match after with
  | [] => 0
  | v :: rest => ((if (v =? before)%Z then 0 else 1) + installs v rest)%nat
  end.


(** ** The lookup contract at one slot

    What section 4.1 says of a lookup of [idx] in the slot state [p]: the
    stored populated value is returned exactly when the stored index equals
    [idx], a miss returns null, and the slot is left as it was. *)
Definition lookup_contract `{BuildConfig} (p : DexCachePair) (idx : Z) : Prop :=
  (index p = idx <->
     object p <> nullptr /\ result (GetObjectForIndex idx) p = Returns (object p)) /\
  (index p <> idx -> result (GetObjectForIndex idx) p = Returns nullptr) /\
  state_after (GetObjectForIndex idx) p = p.

(** The two builds the proofs evaluate concrete runs in. *)
Definition debug_build : BuildConfig :=
  {| kEnableDChecks := true; kRuntimePointerSize := k64 |}.
Definition release_build : BuildConfig :=
  {| kEnableDChecks := false; kRuntimePointerSize := k32 |}.

(** A dex file with 16 type ids and 32 string ids, for concrete runs. *)
Definition sample_dex_file : DexFile :=
  {| NumTypeIds := 16;
     NumStringIds := 32;
     StringByTypeIdx := fun i => if i =? 3 then "LFoo;"%string else "LBar;"%string |}.

Definition sample_dex_cache : DexCache := InitializeDexCache sample_dex_file 4 0 0.

(** The value of a call-site slot, and the cache with a call-site slot set. *)
Definition call_site (this : DexCache) (call_site_idx : Z) : ObjRef :=
  GetResolvedCallSites this !!! Z.to_nat call_site_idx.

Definition bind_call_site (call_site_idx : Z) (candidate : ObjRef) (this : DexCache)
  : DexCache :=
  SetResolvedCallSites
    (<[Z.to_nat call_site_idx := candidate]> (GetResolvedCallSites this)) this.

(** ** Reading the bindings

    An index is in bounds when it is a valid position among [count] ids. *)
Definition index_in_bounds (i count : Z) : bool :=
  (0 <=? i) && (i <? count).

(** The test under which [DexCache_setResolvedType] reaches its install: the
    type is non-null, its descriptor is the one the dex file gives for the
    index, there is a class table, and the table's [TryInsert] returns the
    type itself. *)
Definition is_canonical_type `{BuildConfig} `{ClassLinker} (w : Runtime)
    (type_index : Z) (t : ObjRef) : bool :=
  negb (IsNull t)
  && DescriptorEquals t
       (StringByTypeIdx (GetDexFile (dex_cache w)) (TypeIndex type_index))
  && match FindClassTable w with
     | Some table => fst (TryInsert t table) =? t
     | None => false
     end.

(** A class linker for concrete runs: classes 7 and 8 have the descriptor
    LFoo;, the table is the list of its classes and [TryInsert] returns the
    class already present for 7 and 8 (it is 7) or adds the new class. *)
Definition sample_class_linker : ClassLinker :=
  {| ClassTable := list ObjRef;
     TryInsert := fun t table =>
       if (t =? 7) || (t =? 8) then (7, table) else (t, t :: table);
     DescriptorEquals := fun t descriptor =>
       if (t =? 7) || (t =? 8) then String.eqb descriptor "LFoo;"
       else String.eqb descriptor "LBar;" |}.

Definition sample_runtime : @Runtime sample_class_linker :=
  @MkRuntime sample_class_linker sample_dex_cache (Some [7]).


(** * Further code of the repository *)

(** ** Calls without state

    The [const] methods of a value class only return or fail a CHECK. *)

#[export] Instance outcome_ret : MRet outcome := fun A a => Returns a.

#[export] Instance outcome_bind : MBind outcome := fun A B k m =>
  match m with
  | Returns a => k a
  | Aborts f => Aborts f
  end.

#[export] Instance outcome_fmap : FMap outcome := fun A B g m =>
  match m with
  | Returns a => Returns (g a)
  | Aborts f => Aborts f
  end.

(** ** MipsManagedRegister (compiler/utils/mips/managed_register_mips.h) *)

Module Mips.

(** [enum RegisterPair], with its two sentinel enumerators. *)
Inductive RegisterPair :=
| V0_V1 | A0_A1 | A2_A3 | T0_T1 | T2_T3 | T4_T5 | T6_T7
| S0_S1 | S2_S3 | S4_S5 | S6_S7 | A1_A2
| kNumberOfRegisterPairs | kNoRegisterPair.

Definition RegisterPair_value (r : RegisterPair) : Z :=
  match r with
  | V0_V1 => 0 | A0_A1 => 1 | A2_A3 => 2 | T0_T1 => 3 | T2_T3 => 4
  | T4_T5 => 5 | T6_T7 => 6 | S0_S1 => 7 | S2_S3 => 8 | S4_S5 => 9
  | S6_S7 => 10 | A1_A2 => 11
  | kNumberOfRegisterPairs => 12
  | kNoRegisterPair => -1
  end.

(** The twelve enumerators that name a pair of core registers. *)
Definition names_a_pair (r : RegisterPair) : bool :=
  match r with
  | kNumberOfRegisterPairs | kNoRegisterPair => false
  | _ => true
  end.

(** The register counts of constants_mips.h and the test [IsNoRegister] of
    the base class ManagedRegister (utils/managed_register.h); neither file is
    among the embedded sources, so they are parameters. *)
Class Constants := {
  kNumberOfCoreRegisters : Z;
  kNumberOfFRegisters : Z;
  kNumberOfDRegisters : Z;
  kNumberOfOverlappingDRegisters : Z;
  IsNoRegister : Z -> bool
}.

Section ManagedRegister.
Context `{Constants}.

Definition kNumberOfCoreRegIds : Z := kNumberOfCoreRegisters.
Definition kNumberOfCoreAllocIds : Z := kNumberOfCoreRegisters.

Definition kNumberOfFRegIds : Z := kNumberOfFRegisters.
Definition kNumberOfFAllocIds : Z := kNumberOfFRegisters.

Definition kNumberOfDRegIds : Z := kNumberOfDRegisters.
Definition kNumberOfOverlappingDRegIds : Z := kNumberOfOverlappingDRegisters.
Definition kNumberOfDAllocIds : Z := kNumberOfDRegisters.

Definition kNumberOfPairRegIds : Z := RegisterPair_value kNumberOfRegisterPairs.

Definition kNumberOfRegIds : Z :=
  kNumberOfCoreRegIds + kNumberOfFRegIds + kNumberOfDRegIds + kNumberOfPairRegIds.
Definition kNumberOfAllocIds : Z :=
  kNumberOfCoreAllocIds + kNumberOfFAllocIds + kNumberOfDAllocIds.

(** A managed register is its register id. *)
Record MipsManagedRegister := MkReg { id_ : Z }.

Definition CHECK (cond : bool) : outcome unit :=
  if cond then Returns tt else Aborts CheckFailure.

Definition IsValidManagedRegister (this : MipsManagedRegister) : bool :=
  (0 <=? id_ this) && (id_ this <? kNumberOfRegIds).

Definition IsCoreRegister (this : MipsManagedRegister) : outcome bool :=
  CHECK (IsValidManagedRegister this);;
  mret ((0 <=? id_ this) && (id_ this <? kNumberOfCoreRegIds)).

Definition IsFRegister (this : MipsManagedRegister) : outcome bool :=
  CHECK (IsValidManagedRegister this);;
  let test := id_ this - kNumberOfCoreRegIds in
  mret ((0 <=? test) && (test <? kNumberOfFRegIds)).

Definition IsDRegister (this : MipsManagedRegister) : outcome bool :=
  CHECK (IsValidManagedRegister this);;
  let test := id_ this - (kNumberOfCoreRegIds + kNumberOfFRegIds) in
  mret ((0 <=? test) && (test <? kNumberOfDRegIds)).

Definition IsOverlappingDRegister (this : MipsManagedRegister) : outcome bool :=
  CHECK (IsValidManagedRegister this);;
  let test := id_ this - (kNumberOfCoreRegIds + kNumberOfFRegIds) in
  mret ((0 <=? test) && (test <? kNumberOfOverlappingDRegIds)).

Definition IsRegisterPair (this : MipsManagedRegister) : outcome bool :=
  CHECK (IsValidManagedRegister this);;
  let test := id_ this - (kNumberOfCoreRegIds + kNumberOfFRegIds + kNumberOfDRegIds) in
  mret ((0 <=? test) && (test <? kNumberOfPairRegIds)).

Definition FromRegId (reg_id : Z) : outcome MipsManagedRegister :=
  let reg := MkReg reg_id in
  CHECK (IsValidManagedRegister reg);;
  mret reg.

Definition AsCoreRegister (this : MipsManagedRegister) : outcome Z :=
  b ← IsCoreRegister this;
  CHECK b;;
  mret (id_ this).

Definition AsFRegister (this : MipsManagedRegister) : outcome Z :=
  b ← IsFRegister this;
  CHECK b;;
  mret (id_ this - kNumberOfCoreRegIds).

Definition AsDRegister (this : MipsManagedRegister) : outcome Z :=
  b ← IsDRegister this;
  CHECK b;;
  mret (id_ this - kNumberOfCoreRegIds - kNumberOfFRegIds).

Definition AsOverlappingDRegisterLow (this : MipsManagedRegister) : outcome Z :=
  b ← IsOverlappingDRegister this;
  CHECK b;;
  d_reg ← AsDRegister this;
  mret (d_reg * 2).

Definition AsOverlappingDRegisterHigh (this : MipsManagedRegister) : outcome Z :=
  b ← IsOverlappingDRegister this;
  CHECK b;;
  d_reg ← AsDRegister this;
  mret (d_reg * 2 + 1).

Definition RegId (this : MipsManagedRegister) : outcome Z :=
  CHECK (negb (IsNoRegister (id_ this)));;
  mret (id_ this).

(** [a && b] and [a || b] of C++ evaluate [b] only when [a] does not decide. *)
Definition and_then (a : outcome bool) (b : outcome bool) : outcome bool :=
  x ← a; if (x : bool) then b else mret false.

Definition or_else (a : outcome bool) (b : outcome bool) : outcome bool :=
  x ← a; if (x : bool) then mret true else b.

Definition AllocId (this : MipsManagedRegister) : outcome Z :=
  ok ← and_then (mret (IsValidManagedRegister this))
         (and_then (negb <$> IsOverlappingDRegister this)
                   (negb <$> IsRegisterPair this));
  CHECK ok;;
  CHECK (id_ this <? kNumberOfAllocIds);;
  mret (id_ this).

Definition AllocIdLow (this : MipsManagedRegister) : outcome Z :=
  ok ← or_else (IsOverlappingDRegister this) (IsRegisterPair this);
  CHECK ok;;
  id ← RegId this;
  let r := id - (kNumberOfCoreRegIds + kNumberOfFRegIds) in
  if r <? kNumberOfOverlappingDRegIds then
    b ← IsOverlappingDRegister this;
    CHECK b;;
    mret ((r * 2) + kNumberOfCoreRegIds)
  else
    b ← IsRegisterPair this;
    CHECK b;;
    let low := (r - kNumberOfDRegIds) * 2 + 2 in
    mret (if 24 <=? low then 5 else low).

Definition AllocIdHigh (this : MipsManagedRegister) : outcome Z :=
  low ← AllocIdLow this;
  mret (low + 1).

Definition AsRegisterPairLow (this : MipsManagedRegister) : outcome Z :=
  b ← IsRegisterPair this;
  CHECK b;;
  low ← AllocIdLow this;
  reg ← FromRegId low;
  AsCoreRegister reg.

Definition AsRegisterPairHigh (this : MipsManagedRegister) : outcome Z :=
  b ← IsRegisterPair this;
  CHECK b;;
  high ← AllocIdHigh this;
  reg ← FromRegId high;
  AsCoreRegister reg.

Definition FromCoreRegister (r : Z) : outcome MipsManagedRegister :=
  FromRegId r.

Definition FromFRegister (r : Z) : outcome MipsManagedRegister :=
  FromRegId (r + kNumberOfCoreRegIds).

Definition FromDRegister (r : Z) : outcome MipsManagedRegister :=
  FromRegId (r + kNumberOfCoreRegIds + kNumberOfFRegIds).

Definition FromRegisterPair (r : RegisterPair) : outcome MipsManagedRegister :=
  FromRegId (RegisterPair_value r
             + (kNumberOfCoreRegIds + kNumberOfFRegIds + kNumberOfDRegIds)).

(** What the theorems ask of the counts: they are counts, the overlapping
    double registers are among the double registers and lie over single
    registers, the core registers reach up to the pair S6_S7 (ids 22 and 23),
    and NoRegister is not the id of a register. *)
Record counts_ok : Prop := {
  core_nonneg : 0 <= kNumberOfCoreRegisters;
  f_nonneg : 0 <= kNumberOfFRegisters;
  d_nonneg : 0 <= kNumberOfDRegisters;
  overlapping_nonneg : 0 <= kNumberOfOverlappingDRegisters;
  overlapping_are_d : kNumberOfOverlappingDRegisters <= kNumberOfDRegisters;
  overlapping_over_f : 2 * kNumberOfOverlappingDRegisters <= kNumberOfFRegisters;
  core_has_pairs : 24 <= kNumberOfCoreRegisters;
  no_register_invalid :
    forall id, 0 <= id < kNumberOfRegIds -> IsNoRegister id = false
}.

End ManagedRegister.

(** The counts of MIPS32: 32 core, 32 single and 16 double registers, all of
    the double registers overlapping; NoRegister is the id -1. *)
Definition mips32 : Constants :=
  {| kNumberOfCoreRegisters := 32;
     kNumberOfFRegisters := 32;
     kNumberOfDRegisters := 16;
     kNumberOfOverlappingDRegisters := 16;
     IsNoRegister := fun id => id =? -1 |}.

End Mips.

(** ** The loop regression test (class Main of the loop optimization test) *)

Module Main.

(** Java arithmetic: [int] and [long] values are the integers of their
    range, and every operation wraps its result into the range. *)
Definition int_wrap (z : Z) : Z := (z + 2 ^ 31) mod 2 ^ 32 - 2 ^ 31.
Definition long_wrap (z : Z) : Z := (z + 2 ^ 63) mod 2 ^ 64 - 2 ^ 63.

Definition is_int (z : Z) : Prop := - 2 ^ 31 <= z < 2 ^ 31.
Definition is_long (z : Z) : Prop := - 2 ^ 63 <= z < 2 ^ 63.

Definition iadd (a b : Z) : Z := int_wrap (a + b).
Definition imul (a b : Z) : Z := int_wrap (a * b).
(** Java division truncates towards zero. *)
Definition idiv (a b : Z) : Z := int_wrap (Z.quot a b).

Definition lmul (a b : Z) : Z := long_wrap (a * b).
Definition ldiv (a b : Z) : Z := long_wrap (Z.quot a b).

(** One turn of a loop body either goes on with the next state or leaves the
    method with a [return]. *)
Inductive turn (S R : Type) :=
| Next (s : S)
| Return (r : R).
Arguments Next {S R} s.
Arguments Return {S R} r.

(** [for (...; cond; ...) body], the update being the end of [body]: [None]
    when [fuel] turns do not reach the end of the loop. *)
Fixpoint loop {S R} (fuel : nat) (cond : S -> bool) (body : S -> turn S R) (s : S)
  : option (turn S R) :=
  match fuel with
  | O => None
  | S fuel' =>
      if cond s then
        match body s with
        | Next s' => loop fuel' cond body s'
        | Return r => Some (Return r)
        end
      else Some (Next s)
  end.

(** The value a method returns: that of the [return] inside the loop, or of
    the statement after the loop. *)
Definition returning {S R} (run : option (turn S R)) (after : S -> R) : option R :=
  match run with
  | Some (Return r) => Some r
  | Some (Next s) => Some (after s)
  | None => None
  end.

(** [earlyExitFirst]: the state is (i, k). *)
Definition earlyExitFirst (fuel : nat) (m : Z) : option Z :=
  returning
    (loop fuel (fun s => fst s <? 10)
       (fun s => let i := fst s in let k := snd s in
                 if i =? m then Return k
                 else Next (iadd i 1, iadd k 1))
       (0, 0))
    snd.

(** [earlyExitLast]: the state is (i, k). *)
Definition earlyExitLast (fuel : nat) (m : Z) : option Z :=
  returning
    (loop fuel (fun s => fst s <? 10)
       (fun s => let i := fst s in let k := iadd (snd s) 1 in
                 if i =? m then Return k
                 else Next (iadd i 1, k))
       (0, 0))
    snd.

(** The four geometric loops: the state is (i, x). *)
Definition geoIntDivLastValue (fuel : nat) (x : Z) : option Z :=
  returning
    (loop (R := Z) fuel (fun s => fst s <? 2)
       (fun s => Next (iadd (fst s) 1, idiv (snd s) 1081788608))
       (0, x))
    snd.

Definition geoIntMulLastValue (fuel : nat) (x : Z) : option Z :=
  returning
    (loop (R := Z) fuel (fun s => fst s <? 2)
       (fun s => Next (iadd (fst s) 1, imul (snd s) 1081788608))
       (0, x))
    snd.

Definition geoLongDivLastValue (fuel : nat) (x : Z) : option Z :=
  returning
    (loop (R := Z) fuel (fun s => fst s <? 10)
       (fun s => Next (iadd (fst s) 1, ldiv (snd s) 1081788608))
       (0, x))
    snd.

Definition geoLongMulLastValue (fuel : nat) (x : Z) : option Z :=
  returning
    (loop (R := Z) fuel (fun s => fst s <? 10)
       (fun s => Next (iadd (fst s) 1, lmul (snd s) 1081788608))
       (0, x))
    snd.

End Main.

(** ** The arithmetic of the mul-long/2addr handler of the MIPS interpreter
       (runtime/interpreter/mterp/mips/op_mul_long_2addr.S, lines 14-25) *)

Module MterpMips.

(** The registers the instructions touch, and the multiply unit's HI and LO. *)
Inductive reg := v0 | v1 | a0 | a1 | a2 | a3 | t1 | t2 | HI | LO.

Definition reg_eqb (r r' : reg) : bool :=
  match r, r' with
  | v0, v0 | v1, v1 | a0, a0 | a1, a1 | a2, a2 | a3, a3
  | t1, t1 | t2, t2 | HI, HI | LO, LO => true
  | _, _ => false
  end.

(** A register file holds one 32-bit word per register. *)
Definition regs := reg -> Z.

Definition set (r : reg) (v : Z) (s : regs) : regs :=
  fun r' => if reg_eqb r r' then v else s r'.

Definition word (z : Z) : Z := z mod 2 ^ 32.

Inductive instr :=
| mul (rd rs rt : reg)
| mulu (rd rs rt : reg)
| muhu (rd rs rt : reg)
| multu (rs rt : reg)
| mfhi (rd : reg)
| mflo (rd : reg)
| addu (rd rs rt : reg).

(** One instruction on words read as unsigned.  Before release 6, [mul]
    leaves HI and LO unpredictable: they take the values [junk]. *)
Definition step (junk : Z * Z) (i : instr) (s : regs) : regs :=
  match i with
  | mul rd rs rt => set rd (word (s rs * s rt)) (set HI (fst junk) (set LO (snd junk) s))
  | mulu rd rs rt => set rd (word (s rs * s rt)) s
  | muhu rd rs rt => set rd (word (s rs * s rt / 2 ^ 32)) s
  | multu rs rt =>
      set HI (word (s rs * s rt / 2 ^ 32)) (set LO (word (s rs * s rt)) s)
  | mfhi rd => set rd (s HI) s
  | mflo rd => set rd (s LO) s
  | addu rd rs rt => set rd (word (s rs + s rt)) s
  end.

Definition run (junk : Z * Z) (code : list instr) (s : regs) : regs :=
  fold_left (fun s i => step junk i s) code s.

(** The instructions between the loads of vA and vB and the store of the
    result, for either value of the assembler symbol MIPS32REVGE6. *)
Definition op_mul_long_2addr (MIPS32REVGE6 : bool) : list instr :=
  [mul v1 a3 a0]
  ++ (if MIPS32REVGE6
      then [mulu v0 a2 a0; muhu t1 a2 a0]
      else [multu a2 a0; mfhi t1; mflo v0])
  ++ [mul t2 a2 a1;
      addu v1 v1 t1;
      addu v1 v1 t2].

(** The 64-bit value of a low and a high word. *)
Definition pair64 (low high : Z) : Z := low + 2 ^ 32 * high.

Definition is_word (z : Z) : Prop := 0 <= z < 2 ^ 32.

End MterpMips.
(** * Properties *)

(** ** Arithmetic of the slot mapping *)

Lemma SlotIndex_mod n idx :
  0 <= n -> FixedCache.SlotIndex (2 ^ n) idx = idx mod 2 ^ n.
Proof.
  intros Hn. unfold FixedCache.SlotIndex.
  replace (2 ^ n - 1) with (Z.ones n) by (rewrite Z.ones_equiv; lia).
  now apply Z.land_ones.
Qed.

Lemma SlotIndex_range n idx :
  0 <= n -> 0 <= FixedCache.SlotIndex (2 ^ n) idx < 2 ^ n.
Proof.
  intros Hn. rewrite SlotIndex_mod by assumption.
  apply Z.mod_pos_bound. apply Z.pow_pos_nonneg; lia.
Qed.

Lemma SlotIndex_zero C : FixedCache.SlotIndex C 0 = 0.
Proof. unfold FixedCache.SlotIndex. apply Z.land_0_l. Qed.

Lemma SlotIndex_one n : 1 <= n -> FixedCache.SlotIndex (2 ^ n) 1 = 1.
Proof.
  intros Hn. rewrite SlotIndex_mod by lia.
  apply Z.mod_small. split; [lia|].
  apply Z.pow_gt_1; lia.
Qed.

Lemma SlotIndex_add_capacity n idx :
  0 <= n -> FixedCache.SlotIndex (2 ^ n) (idx + 2 ^ n) = FixedCache.SlotIndex (2 ^ n) idx.
Proof.
  intros Hn. rewrite !SlotIndex_mod by assumption.
  rewrite <- (Z.mul_1_l (2 ^ n)) at 1.
  apply Z.mod_add. apply Z.pow_nonzero; lia.
Qed.

Lemma SlotIndex_multiple n m :
  0 <= n -> FixedCache.SlotIndex (2 ^ n) (m * 2 ^ n) = 0.
Proof.
  intros Hn. rewrite SlotIndex_mod by assumption.
  apply Z.mod_mul. apply Z.pow_nonzero; lia.
Qed.

(** The invalid index of the slot a logical index maps to is never that
    logical index. *)
Lemma InvalidIndexForSlot_unreachable n idx :
  1 <= n -> InvalidIndexForSlot (FixedCache.SlotIndex (2 ^ n) idx) <> idx.
Proof.
  intros Hn. unfold InvalidIndexForSlot.
  destruct (Z.eqb_spec (FixedCache.SlotIndex (2 ^ n) idx) 0) as [E|E].
  - intros <-. rewrite SlotIndex_one in E by assumption. discriminate.
  - intros <-. now rewrite SlotIndex_zero in E.
Qed.

Lemma static_asserts_power_of_two :
  kDexCacheTypeCacheSize = 2 ^ 10 /\
  kDexCacheStringCacheSize = 2 ^ 10 /\
  kDexCacheMethodTypeCacheSize = 2 ^ 10.
Proof. repeat split. Qed.

(** ** The slot lookup *)

Ltac run_M :=
  unfold result, state_after, FixedCache.at_slot, zoom, on_copy, CHECK, DCHECK,
    modify, put, get, abort; unfold mbind, M_bind, mret, M_ret; simpl.

Section SlotLookup.
Context `{BuildConfig}.

Lemma GetObjectForIndex_miss p idx :
  index p <> idx -> GetObjectForIndex idx p = (Returns nullptr, p).
Proof.
  intros Hne. unfold GetObjectForIndex. run_M.
  destruct (Z.eqb_spec idx (index p)); [congruence | reflexivity].
Qed.

Lemma GetObjectForIndex_hit p idx :
  index p = idx -> object p <> nullptr ->
  GetObjectForIndex idx p = (Returns (object p), p).
Proof.
  intros <- Hobj. unfold GetObjectForIndex. run_M.
  rewrite Z.eqb_refl. simpl. unfold IsNull.
  destruct (Z.eqb_spec (object p) 0) as [E|E]; [contradiction|].
  simpl. now destruct kEnableDChecks.
Qed.

Lemma GetObjectForIndex_null_object p idx :
  index p = idx -> object p = nullptr ->
  GetObjectForIndex idx p =
    (if kEnableDChecks then Aborts DCheckFailure else Returns nullptr, p).
Proof.
  intros <- Hobj. unfold GetObjectForIndex. run_M.
  rewrite Z.eqb_refl. simpl. unfold IsNull. rewrite Hobj. simpl.
  now destruct kEnableDChecks.
Qed.

Lemma GetObjectForIndex_state p idx :
  state_after (GetObjectForIndex idx) p = p.
Proof.
  unfold GetObjectForIndex. run_M.
  destruct (idx =? index p); simpl; [|reflexivity].
  destruct kEnableDChecks; [|reflexivity].
  now destruct (IsNull (object p)).
Qed.

End SlotLookup.

(** C2 (as stated, refuted): on the empty slot 0, [{null, 1}], a lookup of
    logical index 1 finds the stored index equal to the queried one although
    no populated value is stored; this is so in a debug and in a release
    build. *)
Lemma lookup_contract_fails_on_matching_empty_slot :
  ~ @lookup_contract debug_build (MkDexCachePair nullptr 1) 1 /\
  ~ @lookup_contract release_build (MkDexCachePair nullptr 1) 1.
Proof.
  split; intros [Hiff _]; destruct (proj1 Hiff eq_refl) as [Hobj _];
    now apply Hobj.
Qed.

(** C2 (amended): for every slot state and every logical index such that the
    slot does not hold a null object under the queried index, the lookup
    returns the stored non-null object if and only if the stored index equals
    the queried index, returns null on every other query (a miss is an
    ordinary return, not an abort), and leaves the slot unchanged. *)
Theorem GetObjectForIndex_contract `{BuildConfig} (p : DexCachePair) (idx : Z) :
  (object p = nullptr -> index p <> idx) ->
  lookup_contract p idx.
Proof.
  intros Hp. unfold lookup_contract. split; [split|split].
  - intros Hidx. split.
    + intros Hobj. now apply Hp in Hobj.
    + unfold result. rewrite GetObjectForIndex_hit; [reflexivity|assumption|].
      intros Hobj. now apply Hp in Hobj.
  - intros [Hobj Hres].
    destruct (Z.eq_dec (index p) idx) as [E|E]; [assumption|].
    unfold result in Hres. rewrite GetObjectForIndex_miss in Hres by assumption.
    simpl in Hres. congruence.
  - intros Hne. unfold result. now rewrite GetObjectForIndex_miss.
  - apply GetObjectForIndex_state.
Qed.

Lemma GetObjectForIndex_contract_witness :
  (object (MkDexCachePair 77 5) = nullptr -> index (MkDexCachePair 77 5) <> 5) /\
  @lookup_contract debug_build (MkDexCachePair 77 5) 5.
Proof.
  split.
  - intros Hobj. discriminate Hobj.
  - apply (@GetObjectForIndex_contract debug_build (MkDexCachePair 77 5) 5).
    intros Hobj. discriminate Hobj.
Defined.

(** A slot that satisfies the invariant at the position the queried index maps
    to never holds a null object under that index. *)
Lemma slot_ok_no_null_match n slot p idx :
  1 <= n -> FixedCache.SlotIndex (2 ^ n) idx = slot ->
  slot_ok (2 ^ n) slot p = true ->
  object p = nullptr -> index p <> idx.
Proof.
  intros Hn <- Hok Hobj. unfold slot_ok, slot_empty, slot_populated, IsNull in Hok.
  rewrite Hobj in Hok. simpl in Hok. rewrite orb_false_r in Hok.
  apply Z.eqb_eq in Hok. rewrite Hok.
  now apply InvalidIndexForSlot_unreachable.
Qed.

(** ** The slot array *)

Lemma load_store_eq slots slot p :
  0 <= slot < Z.of_nat (length slots) ->
  FixedCache.load (FixedCache.store slot p slots) slot = p.
Proof.
  intros Hs. unfold FixedCache.load, FixedCache.store.
  apply list_lookup_total_insert_eq. lia.
Qed.

Lemma load_store_ne slots slot slot' p :
  0 <= slot -> 0 <= slot' -> slot <> slot' ->
  FixedCache.load (FixedCache.store slot p slots) slot' = FixedCache.load slots slot'.
Proof.
  intros Hs Hs' Hne. unfold FixedCache.load, FixedCache.store.
  apply list_lookup_total_insert_ne. lia.
Qed.

Lemma store_load_id slots slot :
  FixedCache.store slot (FixedCache.load slots slot) slots = slots.
Proof.
  unfold FixedCache.load, FixedCache.store.
  destruct (decide (Z.to_nat slot < length slots)%nat) as [Hlt|Hge].
  - apply list_insert_id. now apply list_lookup_lookup_total_lt.
  - apply list_insert_ge. lia.
Qed.

Lemma store_capacity C slots slot p :
  has_capacity C slots -> has_capacity C (FixedCache.store slot p slots).
Proof. unfold has_capacity, FixedCache.store. now rewrite length_insert. Qed.

Lemma capacity_slot_in_range n slots idx :
  0 <= n -> has_capacity (2 ^ n) slots ->
  0 <= FixedCache.SlotIndex (2 ^ n) idx < Z.of_nat (length slots).
Proof.
  intros Hn Hcap. unfold has_capacity in Hcap. rewrite Hcap.
  pose proof (SlotIndex_range n idx Hn). lia.
Qed.

(** ** The cache operations, as equations *)

Section CacheOps.
Context `{BuildConfig}.
Variable C : Z.

Lemma Lookup_unfold slots idx :
  FixedCache.Lookup C idx slots =
    (result (GetObjectForIndex idx) (FixedCache.load slots (FixedCache.SlotIndex C idx)),
     slots).
Proof. reflexivity. Qed.

Lemma Insert_unfold slots idx v :
  FixedCache.Insert C idx v slots =
    (Returns tt,
     FixedCache.store (FixedCache.SlotIndex C idx) (MkDexCachePair v idx) slots).
Proof. reflexivity. Qed.

Lemma ClearIfMatching_unfold slots idx :
  FixedCache.ClearIfMatching C idx slots =
    (Returns tt,
     if index (FixedCache.load slots (FixedCache.SlotIndex C idx)) =? idx
     then FixedCache.store (FixedCache.SlotIndex C idx)
            (MkDexCachePair nullptr (InvalidIndexForSlot (FixedCache.SlotIndex C idx)))
            slots
     else slots).
Proof.
  unfold FixedCache.ClearIfMatching, SlotPair.Clear. run_M.
  destruct (index _ =? idx); simpl; [reflexivity|].
  now rewrite store_load_id.
Qed.

Lemma Lookup_state slots idx :
  state_after (FixedCache.Lookup C idx) slots = slots.
Proof. reflexivity. Qed.

Lemma Lookup_empty_slot slots idx :
  index (FixedCache.load slots (FixedCache.SlotIndex C idx)) <> idx ->
  result (FixedCache.Lookup C idx) slots = Returns nullptr.
Proof.
  intros Hne. unfold result. rewrite Lookup_unfold. simpl.
  unfold result. now rewrite GetObjectForIndex_miss.
Qed.

End CacheOps.

(** Looking up what has just been inserted. *)
Lemma Lookup_Insert_same `{BuildConfig} n slots idx v :
  0 <= n -> has_capacity (2 ^ n) slots -> v <> nullptr ->
  result (FixedCache.Lookup (2 ^ n) idx)
         (state_after (FixedCache.Insert (2 ^ n) idx v) slots) = Returns v.
Proof.
  intros Hn Hcap Hv. unfold state_after. rewrite Insert_unfold. simpl.
  unfold result. rewrite Lookup_unfold. simpl.
  rewrite load_store_eq by now apply capacity_slot_in_range.
  unfold result. now rewrite GetObjectForIndex_hit.
Qed.

(** Looking up another index of the slot that has just been written. *)
Lemma Lookup_Insert_alias `{BuildConfig} n slots idx idx' v :
  0 <= n -> has_capacity (2 ^ n) slots -> idx <> idx' ->
  FixedCache.SlotIndex (2 ^ n) idx' = FixedCache.SlotIndex (2 ^ n) idx ->
  result (FixedCache.Lookup (2 ^ n) idx')
         (state_after (FixedCache.Insert (2 ^ n) idx v) slots) = Returns nullptr.
Proof.
  intros Hn Hcap Hne Hslot. apply Lookup_empty_slot.
  unfold state_after. rewrite Insert_unfold. simpl. rewrite Hslot.
  rewrite load_store_eq by now apply capacity_slot_in_range.
  exact Hne.
Qed.

Lemma Fresh_slot_zero n :
  0 <= n ->
  FixedCache.load (FixedCache.Fresh (2 ^ n)) 0 = MkDexCachePair nullptr 1.
Proof.
  intros Hn. unfold FixedCache.Fresh, state_after, Initialize, modify. simpl.
  unfold FixedCache.load. simpl.
  apply list_lookup_total_insert_eq.
  unfold FixedCache.ZeroFilled. rewrite length_replicate.
  assert (0 < 2 ^ n) by (apply Z.pow_pos_nonneg; lia). lia.
Qed.

Lemma Fresh_slot_nonzero n slot :
  0 < slot < 2 ^ n ->
  FixedCache.load (FixedCache.Fresh (2 ^ n)) slot = MkDexCachePair nullptr 0.
Proof.
  intros Hs. unfold FixedCache.Fresh, state_after, Initialize, modify. simpl.
  unfold FixedCache.load.
  rewrite list_lookup_total_insert_ne by lia.
  unfold FixedCache.ZeroFilled. apply lookup_total_replicate_2. lia.
Qed.

Lemma Fresh_capacity n : has_capacity (2 ^ n) (FixedCache.Fresh (2 ^ n)).
Proof.
  unfold has_capacity, FixedCache.Fresh, state_after, Initialize, modify. simpl.
  rewrite length_insert. unfold FixedCache.ZeroFilled. apply length_replicate.
Qed.

(** ** Empty slots are never read *)

Lemma empty_slot_index_mismatch n idx p :
  1 <= n -> slot_empty (FixedCache.SlotIndex (2 ^ n) idx) p = true -> index p <> idx.
Proof.
  intros Hn Hempty. unfold slot_empty in Hempty.
  apply andb_true_iff in Hempty as [_ Hidx]. apply Z.eqb_eq in Hidx.
  rewrite Hidx. now apply InvalidIndexForSlot_unreachable.
Qed.

(** C9: the capacity being a power of two (2^n, and at least 2 as all three
    capacities of the source are), logical index 0 maps to slot 0 only, so a
    non-zero slot is never queried with index 0; the empty encoding of the
    slot a logical index maps to never carries that index, and on an empty
    slot [GetObjectForIndex] leaves through the index test, returning null
    without reaching the read of the object, in every build. *)
Theorem empty_slot_never_read `{BuildConfig} (n idx : Z) (p : DexCachePair) :
  1 <= n ->
  FixedCache.SlotIndex (2 ^ n) 0 = 0 /\
  FixedCache.SlotIndex (2 ^ n) idx = idx mod 2 ^ n /\
  (FixedCache.SlotIndex (2 ^ n) idx <> 0 -> idx <> 0) /\
  InvalidIndexForSlot (FixedCache.SlotIndex (2 ^ n) idx) <> idx /\
  (slot_empty (FixedCache.SlotIndex (2 ^ n) idx) p = true ->
     index p <> idx /\
     (idx =? index p) = false /\
     GetObjectForIndex idx p = (Returns nullptr, p)).
Proof.
  intros Hn. split; [apply SlotIndex_zero|].
  split; [apply SlotIndex_mod; lia|].
  split; [intros Hs ->; now rewrite SlotIndex_zero in Hs|].
  split; [now apply InvalidIndexForSlot_unreachable|].
  intros Hempty.
  assert (Hne : index p <> idx) by now apply (empty_slot_index_mismatch n).
  split; [exact Hne|]. split.
  - apply Z.eqb_neq. congruence.
  - now apply GetObjectForIndex_miss.
Qed.

Lemma empty_slot_never_read_witness :
  1 <= 10 /\
  slot_empty (FixedCache.SlotIndex (2 ^ 10) 2048) (MkDexCachePair nullptr 1) = true /\
  @GetObjectForIndex debug_build 2048 (MkDexCachePair nullptr 1)
    = (Returns nullptr, MkDexCachePair nullptr 1).
Proof.
  split; [lia|]. split; [reflexivity|].
  apply (@empty_slot_never_read debug_build 10 2048 (MkDexCachePair nullptr 1)); [lia|].
  reflexivity.
Defined.

(** The same for the three caches of a DexCache. *)
Lemma DexCache_empty_slots_are_skipped `{BuildConfig} (idx : Z) (p : DexCachePair) :
  (slot_empty (StringSlotIndex idx) p = true
   \/ slot_empty (TypeSlotIndex idx) p = true
   \/ slot_empty (MethodTypeSlotIndex idx) p = true) ->
  GetObjectForIndex idx p = (Returns nullptr, p).
Proof.
  unfold StringSlotIndex, TypeSlotIndex, MethodTypeSlotIndex.
  destruct static_asserts_power_of_two as (-> & -> & ->).
  intros [Hs|[Hs|Hs]];
    apply GetObjectForIndex_miss; now apply (empty_slot_index_mismatch 10).
Qed.

(** A lookup in a fresh cache misses, whatever the index. *)
Lemma Lookup_Fresh `{BuildConfig} n idx :
  1 <= n ->
  FixedCache.Lookup (2 ^ n) idx (FixedCache.Fresh (2 ^ n))
    = (Returns nullptr, FixedCache.Fresh (2 ^ n)).
Proof.
  intros Hn. rewrite Lookup_unfold. f_equal.
  set (slot := FixedCache.SlotIndex (2 ^ n) idx).
  assert (Hempty : slot_empty slot (FixedCache.load (FixedCache.Fresh (2 ^ n)) slot) = true).
  { pose proof (SlotIndex_range n idx ltac:(lia)) as Hr. fold slot in Hr.
    destruct (Z.eq_dec slot 0) as [E|E].
    - rewrite E, Fresh_slot_zero by lia. reflexivity.
    - rewrite Fresh_slot_nonzero by lia.
      unfold slot_empty, InvalidIndexForSlot. simpl.
      destruct (Z.eqb_spec slot 0); [contradiction|reflexivity]. }
  unfold result. rewrite GetObjectForIndex_miss; [reflexivity|].
  now apply (empty_slot_index_mismatch n).
Qed.

(** ** The sentinel of slot 0 *)

(** C3: slot 0 has the invalid index 1 and every other slot the invalid index
    0; in a cache of capacity C = 2^n (at least 2, as the three capacities of
    the source are) a lookup of index 0 in a fresh cache returns null, a
    lookup of index 0 after an insert of a non-null value at index 0 returns
    that value, and an insert at m*C with m > 0 goes to slot 0 with an index
    other than the invalid index of slot 0: the slot is then not in its empty
    encoding, a lookup of m*C returns the value and a lookup of 0 misses. *)
Theorem slot_zero_sentinel `{BuildConfig} (n m : Z) (slots : list DexCachePair)
    (v : ObjRef) :
  1 <= n -> has_capacity (2 ^ n) slots -> v <> nullptr -> 0 < m ->
  (InvalidIndexForSlot 0 = 1 /\ forall slot, slot <> 0 -> InvalidIndexForSlot slot = 0) /\
  result (FixedCache.Lookup (2 ^ n) 0) (FixedCache.Fresh (2 ^ n)) = Returns nullptr /\
  result (FixedCache.Lookup (2 ^ n) 0)
         (state_after (FixedCache.Insert (2 ^ n) 0 v) slots) = Returns v /\
  FixedCache.SlotIndex (2 ^ n) (m * 2 ^ n) = 0 /\
  m * 2 ^ n <> InvalidIndexForSlot 0 /\
  slot_empty 0 (FixedCache.load
                  (state_after (FixedCache.Insert (2 ^ n) (m * 2 ^ n) v) slots) 0) = false /\
  result (FixedCache.Lookup (2 ^ n) (m * 2 ^ n))
         (state_after (FixedCache.Insert (2 ^ n) (m * 2 ^ n) v) slots) = Returns v /\
  result (FixedCache.Lookup (2 ^ n) 0)
         (state_after (FixedCache.Insert (2 ^ n) (m * 2 ^ n) v) slots) = Returns nullptr.
Proof.
  intros Hn Hcap Hv Hm.
  assert (Hpow : 2 <= 2 ^ n).
  { change 2 with (2 ^ 1) at 1. apply Z.pow_le_mono_r; lia. }
  assert (Hslot : FixedCache.SlotIndex (2 ^ n) (m * 2 ^ n) = 0)
    by (apply SlotIndex_multiple; lia).
  split.
  { split; [reflexivity|]. intros slot Hs. unfold InvalidIndexForSlot.
    destruct (Z.eqb_spec slot 0); [contradiction|reflexivity]. }
  split.
  { unfold result. now rewrite Lookup_Fresh. }
  split.
  { apply Lookup_Insert_same; [lia|assumption|assumption]. }
  split; [exact Hslot|].
  split.
  { unfold InvalidIndexForSlot. simpl. nia. }
  split.
  { unfold state_after. rewrite Insert_unfold. simpl. rewrite Hslot.
    rewrite load_store_eq.
    - unfold slot_empty, IsNull. simpl.
      destruct (Z.eqb_spec v 0); [contradiction|reflexivity].
    - unfold has_capacity in Hcap. rewrite Hcap. lia. }
  split.
  { apply Lookup_Insert_same; [lia|assumption|assumption]. }
  apply Lookup_Insert_alias; [lia|assumption|nia|].
  now rewrite SlotIndex_zero.
Qed.

Lemma slot_zero_sentinel_witness :
  1 <= 10 /\
  has_capacity (2 ^ 10) (FixedCache.Fresh (2 ^ 10)) /\
  (77 : ObjRef) <> nullptr /\
  0 < 3 /\
  @result _ _ (@FixedCache.Lookup debug_build (2 ^ 10) 0)
         (state_after (FixedCache.Insert (2 ^ 10) 0 77) (FixedCache.Fresh (2 ^ 10)))
    = Returns 77.
Proof.
  split; [lia|]. split; [reflexivity|]. split; [discriminate|]. split; [lia|].
  apply (@slot_zero_sentinel debug_build 10 3 (FixedCache.Fresh (2 ^ 10)) 77);
    [lia | reflexivity | discriminate | lia].
Defined.

(** ** Direct-mapped aliasing *)

(** C5: in a cache of capacity C = 2^n the slot of a logical index is
    index & (C-1), which is index mod C; an insert overwrites the slot
    whatever it held, also an entry of another logical index; after inserts at
    k and then at k+C, a lookup of k returns null and a lookup of k+C returns
    the second (non-null) value. *)
Theorem direct_map_aliasing `{BuildConfig} (n k : Z) (slots : list DexCachePair)
    (v1 v2 : ObjRef) :
  0 <= n -> has_capacity (2 ^ n) slots -> v2 <> nullptr ->
  let C := 2 ^ n in
  let after := state_after (FixedCache.Insert C (k + C) v2)
                 (state_after (FixedCache.Insert C k v1) slots) in
  FixedCache.SlotIndex C k = Z.land k (C - 1) /\
  FixedCache.SlotIndex C k = k mod C /\
  FixedCache.SlotIndex C (k + C) = FixedCache.SlotIndex C k /\
  FixedCache.load (state_after (FixedCache.Insert C k v1) slots)
                  (FixedCache.SlotIndex C k) = MkDexCachePair v1 k /\
  FixedCache.load after (FixedCache.SlotIndex C k) = MkDexCachePair v2 (k + C) /\
  result (FixedCache.Lookup C k) after = Returns nullptr /\
  result (FixedCache.Lookup C (k + C)) after = Returns v2.
Proof.
  intros Hn Hcap Hv2 C after.
  assert (HC : 0 < C) by (apply Z.pow_pos_nonneg; lia).
  assert (Hcap1 : has_capacity C (state_after (FixedCache.Insert C k v1) slots)).
  { unfold state_after. rewrite Insert_unfold. simpl. now apply store_capacity. }
  split; [reflexivity|].
  split; [now apply SlotIndex_mod|].
  split; [now apply SlotIndex_add_capacity|].
  split.
  { unfold state_after. rewrite Insert_unfold. simpl.
    apply load_store_eq. now apply capacity_slot_in_range. }
  split.
  { unfold after, state_after at 1. rewrite Insert_unfold. simpl.
    unfold C. rewrite SlotIndex_add_capacity by assumption.
    apply load_store_eq. now apply capacity_slot_in_range. }
  split.
  - apply Lookup_Insert_alias; [assumption|assumption|lia|].
    symmetry. now apply SlotIndex_add_capacity.
  - now apply Lookup_Insert_same.
Qed.

Lemma direct_map_aliasing_witness :
  0 <= 10 /\
  has_capacity (2 ^ 10) (FixedCache.Fresh (2 ^ 10)) /\
  (66 : ObjRef) <> nullptr /\
  @result _ _ (@FixedCache.Lookup debug_build (2 ^ 10) 5)
    (state_after (FixedCache.Insert (2 ^ 10) (5 + 2 ^ 10) 66)
       (state_after (FixedCache.Insert (2 ^ 10) 5 65) (FixedCache.Fresh (2 ^ 10))))
    = Returns nullptr.
Proof.
  split; [lia|]. split; [reflexivity|]. split; [discriminate|].
  apply (@direct_map_aliasing debug_build 10 5 (FixedCache.Fresh (2 ^ 10)) 65 66);
    [lia | reflexivity | discriminate].
Defined.

(** ** The slot invariant under the slot operations *)

Lemma Fresh_cache_ok n : 0 <= n -> cache_ok (2 ^ n) (FixedCache.Fresh (2 ^ n)).
Proof.
  intros Hn. split; [apply Fresh_capacity|].
  intros slot Hs. unfold slot_ok.
  destruct (Z.eq_dec slot 0) as [->|Hne].
  - now rewrite Fresh_slot_zero.
  - rewrite Fresh_slot_nonzero by lia.
    unfold slot_empty, InvalidIndexForSlot. simpl.
    now destruct (Z.eqb_spec slot 0).
Qed.

Lemma Install_populates n idx v p :
  0 <= n -> is_uint32 idx -> v <> nullptr ->
  slot_populated (2 ^ n) (FixedCache.SlotIndex (2 ^ n) idx)
    (state_after (SlotPair.Install idx v) p) = true.
Proof.
  intros Hn [Hlo Hhi] Hv. unfold state_after, SlotPair.Install, put. simpl.
  unfold slot_populated, IsNull. simpl.
  destruct (Z.eqb_spec v 0); [contradiction|]. simpl.
  rewrite Z.eqb_refl, andb_true_r.
  apply andb_true_iff. split; [now apply Z.leb_le | now apply Z.ltb_lt].
Qed.

Lemma Insert_cache_ok n slots idx v :
  0 <= n -> is_uint32 idx -> v <> nullptr ->
  cache_ok (2 ^ n) slots ->
  cache_ok (2 ^ n) (state_after (FixedCache.Insert (2 ^ n) idx v) slots).
Proof.
  intros Hn Hidx Hv [Hcap Hok]. unfold state_after. rewrite Insert_unfold. simpl.
  split; [now apply store_capacity|].
  intros slot Hs.
  destruct (Z.eq_dec (FixedCache.SlotIndex (2 ^ n) idx) slot) as [<-|Hne].
  - rewrite load_store_eq by now apply capacity_slot_in_range.
    unfold slot_ok.
    pose proof (Install_populates n idx v (MkDexCachePair v idx) Hn Hidx Hv) as Hp.
    unfold state_after, SlotPair.Install, put in Hp. simpl in Hp.
    rewrite Hp. apply orb_true_r.
  - rewrite load_store_ne; [now apply Hok| |lia|assumption].
    apply SlotIndex_range; lia.
Qed.

Lemma Clear_mismatch slot p idx :
  index p <> idx -> SlotPair.Clear slot idx p = (Returns tt, p).
Proof.
  intros Hne. unfold SlotPair.Clear. run_M.
  now destruct (Z.eqb_spec (index p) idx).
Qed.

Lemma Clear_match slot p idx :
  index p = idx ->
  SlotPair.Clear slot idx p
    = (Returns tt, MkDexCachePair nullptr (InvalidIndexForSlot slot)).
Proof.
  intros He. unfold SlotPair.Clear. run_M.
  now destruct (Z.eqb_spec (index p) idx).
Qed.

(** The pair a matching clear stores is the empty encoding of the slot. *)
Lemma cleared_pair_empty slot :
  slot_empty slot (MkDexCachePair nullptr (InvalidIndexForSlot slot)) = true.
Proof. unfold slot_empty. simpl. apply Z.eqb_refl. Qed.

Lemma ClearIfMatching_mismatch C slots idx :
  index (FixedCache.load slots (FixedCache.SlotIndex C idx)) <> idx ->
  FixedCache.ClearIfMatching C idx slots = (Returns tt, slots).
Proof.
  intros Hne. rewrite ClearIfMatching_unfold.
  now destruct (Z.eqb_spec (index (FixedCache.load slots (FixedCache.SlotIndex C idx))) idx).
Qed.

(** A matching clear leaves the empty encoding in the slot, whatever object
    the slot held. *)
Lemma ClearIfMatching_match n slots idx :
  0 <= n -> has_capacity (2 ^ n) slots ->
  index (FixedCache.load slots (FixedCache.SlotIndex (2 ^ n) idx)) = idx ->
  FixedCache.load (state_after (FixedCache.ClearIfMatching (2 ^ n) idx) slots)
                  (FixedCache.SlotIndex (2 ^ n) idx)
    = MkDexCachePair nullptr (InvalidIndexForSlot (FixedCache.SlotIndex (2 ^ n) idx)).
Proof.
  intros Hn Hcap Hidx. unfold state_after. rewrite ClearIfMatching_unfold. simpl.
  rewrite Hidx, Z.eqb_refl.
  apply load_store_eq. now apply capacity_slot_in_range.
Qed.

Lemma ClearIfMatching_capacity C slots idx :
  has_capacity C slots ->
  has_capacity C (state_after (FixedCache.ClearIfMatching C idx) slots).
Proof.
  intros Hcap. unfold state_after. rewrite ClearIfMatching_unfold. simpl.
  destruct (_ =? idx); [now apply store_capacity|assumption].
Qed.

Lemma ClearIfMatching_cache_ok n slots idx :
  0 <= n -> cache_ok (2 ^ n) slots ->
  cache_ok (2 ^ n) (state_after (FixedCache.ClearIfMatching (2 ^ n) idx) slots).
Proof.
  intros Hn [Hcap Hok]. split; [now apply ClearIfMatching_capacity|].
  intros slot Hs. unfold state_after. rewrite ClearIfMatching_unfold. simpl.
  destruct (_ =? idx); [|now apply Hok].
  destruct (Z.eq_dec (FixedCache.SlotIndex (2 ^ n) idx) slot) as [<-|Hne].
  - rewrite load_store_eq by now apply capacity_slot_in_range.
    unfold slot_ok. now rewrite cleared_pair_empty.
  - rewrite load_store_ne; [now apply Hok| |lia|assumption].
    apply SlotIndex_range; lia.
Qed.

Lemma Initialize_cache_ok n slots :
  0 <= n -> cache_ok (2 ^ n) slots ->
  cache_ok (2 ^ n) (state_after Initialize slots).
Proof.
  intros Hn [Hcap Hok]. unfold state_after, Initialize, modify. simpl.
  change (<[0%nat := MkDexCachePair nullptr (InvalidIndexForSlot 0)]> slots)
    with (FixedCache.store 0 (MkDexCachePair nullptr 1) slots).
  split; [now apply store_capacity|].
  intros slot Hs. destruct (Z.eq_dec 0 slot) as [<-|Hne].
  - rewrite load_store_eq; [reflexivity|].
    unfold has_capacity in Hcap. rewrite Hcap. lia.
  - rewrite load_store_ne; [now apply Hok|lia|lia|assumption].
Qed.

Lemma ZeroFilled_slot_ok n slot :
  0 < slot < 2 ^ n ->
  slot_ok (2 ^ n) slot (FixedCache.load (FixedCache.ZeroFilled (2 ^ n)) slot) = true.
Proof.
  intros Hs. unfold FixedCache.load, FixedCache.ZeroFilled.
  rewrite lookup_total_replicate_2 by lia.
  unfold slot_ok, slot_empty, InvalidIndexForSlot. simpl.
  now destruct (Z.eqb_spec slot 0); [lia|].
Qed.

(** What a lookup finds after an insert and a matching clear. *)
Lemma Lookup_after_clear `{BuildConfig} n slots idx v :
  1 <= n -> has_capacity (2 ^ n) slots ->
  let cleared := state_after (FixedCache.ClearIfMatching (2 ^ n) idx)
                   (state_after (FixedCache.Insert (2 ^ n) idx v) slots) in
  FixedCache.load cleared (FixedCache.SlotIndex (2 ^ n) idx)
    = MkDexCachePair nullptr (InvalidIndexForSlot (FixedCache.SlotIndex (2 ^ n) idx)) /\
  result (FixedCache.Lookup (2 ^ n) idx) cleared = Returns nullptr.
Proof.
  intros Hn Hcap cleared.
  assert (Hcap' : has_capacity (2 ^ n) (state_after (FixedCache.Insert (2 ^ n) idx v) slots)).
  { unfold state_after. rewrite Insert_unfold. simpl. now apply store_capacity. }
  assert (Hload : FixedCache.load cleared (FixedCache.SlotIndex (2 ^ n) idx)
    = MkDexCachePair nullptr (InvalidIndexForSlot (FixedCache.SlotIndex (2 ^ n) idx))).
  { unfold cleared. apply ClearIfMatching_match; [lia|assumption|].
    unfold state_after. rewrite Insert_unfold. simpl.
    rewrite load_store_eq by (apply capacity_slot_in_range; [lia|assumption]).
    reflexivity. }
  split; [exact Hload|].
  apply Lookup_empty_slot. rewrite Hload. simpl.
  now apply InvalidIndexForSlot_unreachable.
Qed.

(** C1: in a cache of capacity C = 2^n (at least 2, as the three capacities
    of the source are) every slot operation keeps every slot either empty
    (null object with the invalid index of the slot) or populated (non-null
    object with a logical index that maps to the slot): the zero-filled
    non-zero slots are empty, the slot-zero initialisation gives a cache that
    satisfies the invariant and keeps it on a cache that does, and so do an
    install of a non-null object and a clear; and on a slot that satisfies the
    invariant, a lookup whose index comparison succeeds finds a non-null
    object and returns it, in every build. *)
Theorem slot_invariant_preserved `{BuildConfig} (n idx : Z)
    (slots : list DexCachePair) (v : ObjRef) :
  1 <= n -> cache_ok (2 ^ n) slots -> is_uint32 idx -> v <> nullptr ->
  let C := 2 ^ n in
  (forall slot, 0 < slot < C ->
     slot_ok C slot (FixedCache.load (FixedCache.ZeroFilled C) slot) = true) /\
  cache_ok C (FixedCache.Fresh C) /\
  cache_ok C (state_after Initialize slots) /\
  cache_ok C (state_after (FixedCache.Insert C idx v) slots) /\
  cache_ok C (state_after (FixedCache.ClearIfMatching C idx) slots) /\
  (forall slot p, slot_ok C slot p = true ->
     slot_empty slot p = true /\ object p = nullptr
     \/ slot_populated C slot p = true /\ object p <> nullptr) /\
  (forall p, slot_ok C (FixedCache.SlotIndex C idx) p = true -> index p = idx ->
     object p <> nullptr /\
     GetObjectForIndex idx p = (Returns (object p), p)).
Proof.
  intros Hn Hok Hidx Hv C.
  split; [intros slot Hs; now apply ZeroFilled_slot_ok|].
  split; [apply Fresh_cache_ok; lia|].
  split; [apply Initialize_cache_ok; [lia|assumption]|].
  split; [apply Insert_cache_ok; [lia|assumption..]|].
  split; [apply ClearIfMatching_cache_ok; [lia|assumption]|].
  split.
  - intros slot p Hp. unfold slot_ok in Hp. apply orb_true_iff in Hp as [He|Hp].
    + left. split; [exact He|]. unfold slot_empty, IsNull in He.
      apply andb_true_iff in He as [He _]. now apply Z.eqb_eq in He.
    + right. split; [exact Hp|]. unfold slot_populated, IsNull in Hp.
      destruct (Z.eqb_spec (object p) 0) as [E|E]; [discriminate Hp|exact E].
  - intros p Hp Hmatch.
    assert (Hobj : object p <> nullptr).
    { intros Hnull.
      now apply (slot_ok_no_null_match n (FixedCache.SlotIndex C idx) p idx Hn eq_refl Hp Hnull). }
    split; [exact Hobj|]. now apply GetObjectForIndex_hit.
Qed.

Lemma slot_invariant_preserved_witness :
  1 <= 10 /\
  cache_ok (2 ^ 10) (FixedCache.Fresh (2 ^ 10)) /\
  is_uint32 1029 /\
  (77 : ObjRef) <> nullptr /\
  cache_ok (2 ^ 10)
    (state_after (FixedCache.ClearIfMatching (2 ^ 10) 1029)
       (FixedCache.Fresh (2 ^ 10))).
Proof.
  assert (Hfresh : cache_ok (2 ^ 10) (FixedCache.Fresh (2 ^ 10))).
  { split; [reflexivity|]. intros slot Hs.
    destruct (Z.eq_dec slot 0) as [->|Hne]; [reflexivity|].
    rewrite Fresh_slot_nonzero by lia.
    unfold slot_ok, slot_empty, InvalidIndexForSlot. simpl.
    destruct (Z.eqb_spec slot 0); [lia|reflexivity]. }
  assert (Hidx : is_uint32 1029) by (unfold is_uint32; lia).
  split; [lia|]. split; [exact Hfresh|]. split; [exact Hidx|].
  split; [discriminate|].
  apply (@slot_invariant_preserved debug_build 10 1029 (FixedCache.Fresh (2 ^ 10)) 77);
    [lia | exact Hfresh | exact Hidx | discriminate].
Defined.

(** C6: in a cache of capacity C = 2^n (at least 2) the clear matches on the
    stored index only.  After Insert(k, v1) and ClearIfMatching(k) a lookup of
    k returns null, and so it does after Insert(k, v1), Insert(k, v2) and
    ClearIfMatching(k): the clear discards v2 as well; whenever the stored
    index of the slot is k the clear leaves the empty encoding of the slot,
    whatever object is stored; and when the stored index differs from k the
    clear leaves the cache unchanged. *)
Theorem ClearIfMatching_rollback `{BuildConfig} (n k : Z)
    (slots : list DexCachePair) (v1 v2 : ObjRef) :
  1 <= n -> has_capacity (2 ^ n) slots ->
  let C := 2 ^ n in
  let once := state_after (FixedCache.ClearIfMatching C k)
                (state_after (FixedCache.Insert C k v1) slots) in
  let twice := state_after (FixedCache.ClearIfMatching C k)
                 (state_after (FixedCache.Insert C k v2)
                    (state_after (FixedCache.Insert C k v1) slots)) in
  result (FixedCache.Lookup C k) once = Returns nullptr /\
  result (FixedCache.Lookup C k) twice = Returns nullptr /\
  slot_empty (FixedCache.SlotIndex C k)
    (FixedCache.load once (FixedCache.SlotIndex C k)) = true /\
  slot_empty (FixedCache.SlotIndex C k)
    (FixedCache.load twice (FixedCache.SlotIndex C k)) = true /\
  (index (FixedCache.load slots (FixedCache.SlotIndex C k)) = k ->
     FixedCache.load (state_after (FixedCache.ClearIfMatching C k) slots)
                     (FixedCache.SlotIndex C k)
       = MkDexCachePair nullptr (InvalidIndexForSlot (FixedCache.SlotIndex C k))) /\
  (index (FixedCache.load slots (FixedCache.SlotIndex C k)) <> k ->
     FixedCache.ClearIfMatching C k slots = (Returns tt, slots)).
Proof.
  intros Hn Hcap C once twice. subst once twice C.
  assert (Hcap1 : has_capacity (2 ^ n)
                    (state_after (FixedCache.Insert (2 ^ n) k v1) slots)).
  { unfold state_after. rewrite Insert_unfold. simpl. now apply store_capacity. }
  destruct (Lookup_after_clear n slots k v1 Hn Hcap) as [Hload1 Hlook1].
  destruct (Lookup_after_clear n _ k v2 Hn Hcap1) as [Hload2 Hlook2].
  split; [exact Hlook1|]. split; [exact Hlook2|].
  split; [rewrite Hload1; apply cleared_pair_empty|].
  split; [rewrite Hload2; apply cleared_pair_empty|].
  split.
  - intros Hmatch. apply ClearIfMatching_match; [lia|assumption..].
  - apply ClearIfMatching_mismatch.
Qed.

Lemma ClearIfMatching_rollback_witness :
  1 <= 10 /\
  has_capacity (2 ^ 10) (FixedCache.Fresh (2 ^ 10)) /\
  @result _ _ (@FixedCache.Lookup debug_build (2 ^ 10) 5)
    (state_after (FixedCache.ClearIfMatching (2 ^ 10) 5)
       (state_after (FixedCache.Insert (2 ^ 10) 5 78)
          (state_after (FixedCache.Insert (2 ^ 10) 5 77) (FixedCache.Fresh (2 ^ 10)))))
    = Returns nullptr.
Proof.
  split; [lia|]. split; [reflexivity|].
  apply (@ClearIfMatching_rollback debug_build 10 5 (FixedCache.Fresh (2 ^ 10)) 77 78);
    [lia | reflexivity].
Defined.

(** A clear of a string and of a type in the sample dex cache. *)
Example ClearString_run :
  let once := state_after (ClearString 5)
                (state_after (SetResolvedString 5 77) sample_dex_cache) in
  let other := state_after (ClearString 1029)
                 (state_after (SetResolvedString 5 77) sample_dex_cache) in
  let types := state_after (ClearResolvedType 2048)
                 (state_after (SetResolvedType 2048 77) sample_dex_cache) in
  FixedCache.load (strings_ once) 5 = MkDexCachePair nullptr 0 /\
  @result _ _ (@GetResolvedString debug_build 5) once = Returns nullptr /\
  @result _ _ (@GetResolvedString debug_build 5) other = Returns 77 /\
  FixedCache.load (resolved_types_ types) 0 = MkDexCachePair nullptr 1 /\
  @result _ _ (@GetResolvedType debug_build 2048) types = Returns nullptr.
Proof. vm_compute. repeat split. Qed.

(** ** Call sites are bound once *)

Section CallSites.

Lemma SetResolvedCallSite_unbound this call_site_idx candidate :
  in_call_site_bounds call_site_idx this = true ->
  call_site this call_site_idx = nullptr ->
  SetResolvedCallSite call_site_idx candidate this =
    (Returns candidate, bind_call_site call_site_idx candidate this).
Proof.
  intros Hb Hnull. unfold SetResolvedCallSite. run_M. rewrite Hb. simpl.
  unfold call_site in Hnull. rewrite Hnull. reflexivity.
Qed.

Lemma SetResolvedCallSite_bound this call_site_idx candidate :
  in_call_site_bounds call_site_idx this = true ->
  call_site this call_site_idx <> nullptr ->
  SetResolvedCallSite call_site_idx candidate this =
    (Returns (call_site this call_site_idx), this).
Proof.
  intros Hb Hnn. unfold SetResolvedCallSite. run_M. rewrite Hb. simpl.
  unfold call_site, IsNull in *.
  destruct (_ =? 0) eqn:E; [|reflexivity].
  apply Z.eqb_eq in E. contradiction.
Qed.

Lemma bind_call_site_bounds this call_site_idx candidate j :
  in_call_site_bounds j (bind_call_site call_site_idx candidate this)
    = in_call_site_bounds j this.
Proof.
  unfold in_call_site_bounds, NumResolvedCallSites, bind_call_site. simpl.
  now rewrite length_insert.
Qed.

Lemma bind_call_site_read this call_site_idx candidate :
  in_call_site_bounds call_site_idx this = true ->
  call_site (bind_call_site call_site_idx candidate this) call_site_idx = candidate.
Proof.
  intros Hb. unfold call_site, bind_call_site. simpl.
  apply list_lookup_total_insert_eq.
  unfold in_call_site_bounds, NumResolvedCallSites in Hb.
  unfold GetResolvedCallSites.
  apply andb_true_iff in Hb as [Hlo Hhi].
  apply Z.leb_le in Hlo. apply Z.ltb_lt in Hhi. lia.
Qed.

(** Once a call site is bound, every later call returns the bound value
    and changes nothing. *)
Lemma race_bound this call_site_idx candidates :
  in_call_site_bounds call_site_idx this = true ->
  call_site this call_site_idx <> nullptr ->
  race call_site_idx candidates this =
    (Returns (replicate (length candidates) (call_site this call_site_idx)), this)
  /\ history call_site_idx candidates this =
     replicate (length candidates) (call_site this call_site_idx).
Proof.
  intros Hb Hnn. induction candidates as [|c rest [IHrace IHhist]]; [easy|].
  split.
  - simpl. unfold mbind, M_bind at 1.
    rewrite SetResolvedCallSite_bound by assumption.
    unfold M_bind at 1. rewrite IHrace. reflexivity.
  - simpl. unfold state_after.
    rewrite SetResolvedCallSite_bound by assumption. simpl.
    fold (call_site this call_site_idx). now rewrite IHhist.
Qed.

Lemma installs_constant v k : installs v (replicate k v) = 0%nat.
Proof. induction k as [|k IH]; [easy|]. simpl. now rewrite Z.eqb_refl, IH. Qed.

End CallSites.

(** C4: a call of SetResolvedCallSite on an index of the call-site array
    installs the candidate and returns it when the slot is null, and
    otherwise leaves the cache unchanged and returns the installed value.
    Hence, when any number of calls with non-null candidates compete for an
    unbound call site, in whatever order their atomic steps take effect:
    every call returns the candidate of the first one, the slot holds that
    value after each of the calls, and exactly one install happened. *)
Theorem SetResolvedCallSite_bind_once (this : DexCache)
    (call_site_idx : Z) (candidate : ObjRef) (rest : list ObjRef) :
  in_call_site_bounds call_site_idx this = true ->
  (call_site this call_site_idx = nullptr ->
     SetResolvedCallSite call_site_idx candidate this =
       (Returns candidate, bind_call_site call_site_idx candidate this)) /\
  (call_site this call_site_idx <> nullptr ->
     SetResolvedCallSite call_site_idx candidate this =
       (Returns (call_site this call_site_idx), this)) /\
  (call_site this call_site_idx = nullptr ->
   Forall (fun c => c <> nullptr) (candidate :: rest) ->
   let calls := candidate :: rest in
   result (race call_site_idx calls) this = Returns (replicate (length calls) candidate) /\
   history call_site_idx calls this = replicate (length calls) candidate /\
   installs nullptr (history call_site_idx calls this) = 1%nat /\
   state_after (race call_site_idx calls) this
     = bind_call_site call_site_idx candidate this /\
   call_site (state_after (race call_site_idx calls) this) call_site_idx = candidate).
Proof.
  intros Hb.
  split; [now apply SetResolvedCallSite_unbound|].
  split; [now apply SetResolvedCallSite_bound|].
  intros Hnull Hall calls.
  apply Forall_cons in Hall as [Hc _].
  set (this' := bind_call_site call_site_idx candidate this).
  assert (Hb' : in_call_site_bounds call_site_idx this' = true)
    by (unfold this'; now rewrite bind_call_site_bounds).
  assert (Hread : call_site this' call_site_idx = candidate)
    by now apply bind_call_site_read.
  assert (Hnn : call_site this' call_site_idx <> nullptr) by now rewrite Hread.
  destruct (race_bound this' call_site_idx rest Hb' Hnn) as [Hrace Hhist].
  rewrite Hread in Hrace, Hhist.
  assert (Hrun : race call_site_idx calls this
                 = (Returns (replicate (length calls) candidate), this')).
  { unfold calls. simpl. unfold mbind, M_bind at 1.
    rewrite SetResolvedCallSite_unbound by assumption. fold this'.
    unfold M_bind at 1. rewrite Hrace. reflexivity. }
  assert (Hh : history call_site_idx calls this = replicate (length calls) candidate).
  { unfold calls. simpl. unfold state_after.
    rewrite SetResolvedCallSite_unbound by assumption. fold this'.
    change (snd (Returns candidate, this')) with this'.
    fold (call_site this' call_site_idx). now rewrite Hread, Hhist. }
  split; [unfold result; now rewrite Hrun|].
  split; [exact Hh|].
  split.
  { rewrite Hh. unfold calls. simpl.
    destruct (Z.eqb_spec candidate nullptr); [contradiction|].
    now rewrite installs_constant. }
  split; [unfold state_after; now rewrite Hrun|].
  unfold state_after. rewrite Hrun. exact Hread.
Qed.

Lemma SetResolvedCallSite_bind_once_witness :
  in_call_site_bounds 2 sample_dex_cache = true /\
  call_site sample_dex_cache 2 = nullptr /\
  Forall (fun c => c <> nullptr) [41; 42; 43] /\
  result (race 2 [41; 42; 43]) sample_dex_cache = Returns [41; 41; 41].
Proof.
  split; [reflexivity|]. split; [reflexivity|].
  assert (Hall : Forall (fun c : Z => c <> nullptr) [41; 42; 43])
    by (repeat constructor; discriminate).
  split; [exact Hall|].
  destruct (SetResolvedCallSite_bind_once sample_dex_cache 2 41 [42; 43] eq_refl) as (_ & _ & Hrace).
  destruct (Hrace eq_refl Hall) as (Hres & _).
  exact Hres.
Defined.

(** ** The native bindings *)

Section Bindings.
Context `{BuildConfig} `{ClassLinker}.

Lemma static_cast_size_t_nonneg i : 0 <= i < 2 ^ 31 -> static_cast_size_t i = i.
Proof.
  intros Hi. unfold static_cast_size_t. apply Z.mod_small.
  destruct kRuntimePointerSize; simpl; lia.
Qed.

Lemma static_cast_size_t_negative i :
  - 2 ^ 31 <= i < 0 -> 2 ^ 31 <= static_cast_size_t i.
Proof.
  intros Hi. unfold static_cast_size_t.
  destruct kRuntimePointerSize; simpl PointerBits.
  - replace (i mod 2 ^ 32) with (i + 2 ^ 32); [lia|].
    apply Z.mod_unique with (q := -1); lia.
  - replace (i mod 2 ^ 64) with (i + 2 ^ 64); [lia|].
    apply Z.mod_unique with (q := -1); lia.
Qed.

(** The CHECK_LT of the bindings, read on the signed index. *)
Lemma CHECK_LT_signed i count :
  is_jint i -> count <= 2 ^ 31 ->
  (static_cast_size_t i <? count) = index_in_bounds i count.
Proof.
  intros [Hlo Hhi] Hcount. unfold index_in_bounds.
  destruct (Z.leb_spec 0 i) as [Hnn|Hneg]; simpl.
  - now rewrite static_cast_size_t_nonneg by lia.
  - apply Z.ltb_ge. pose proof (static_cast_size_t_negative i). lia.
Qed.

Lemma GetObjectForIndex_no_CheckFailure p idx :
  result (GetObjectForIndex idx) p <> Aborts CheckFailure.
Proof.
  unfold GetObjectForIndex. run_M.
  destruct (idx =? index p); simpl; [|discriminate].
  destruct kEnableDChecks; [|discriminate].
  destruct (IsNull (object p)); simpl; discriminate.
Qed.

Lemma call_unfold {A} (m : M DexCache A) (w : Runtime) :
  call m w = (result m (dex_cache w), with_dex_cache (state_after m (dex_cache w)) w).
Proof. unfold call, zoom, result, state_after. now destruct (m (dex_cache w)). Qed.

Lemma with_dex_cache_same (w : Runtime) : with_dex_cache (dex_cache w) w = w.
Proof. now destruct w. Qed.

Lemma cache_getter_result C proj upd idx (d : DexCache) :
  result (zoom proj upd (FixedCache.Lookup C idx)) d <> Aborts CheckFailure.
Proof.
  unfold result, zoom. rewrite Lookup_unfold. simpl.
  apply GetObjectForIndex_no_CheckFailure.
Qed.

Lemma getResolvedType_out_of_bounds type_index (w : Runtime) :
  (static_cast_size_t type_index <? NumTypeIds (GetDexFile (dex_cache w))) = false ->
  DexCache_getResolvedType type_index w = (Aborts CheckFailure, w).
Proof. intros Hb. unfold DexCache_getResolvedType. run_M. now rewrite Hb. Qed.

Lemma getResolvedString_out_of_bounds string_index (w : Runtime) :
  (static_cast_size_t string_index <? NumStringIds (GetDexFile (dex_cache w))) = false ->
  DexCache_getResolvedString string_index w = (Aborts CheckFailure, w).
Proof. intros Hb. unfold DexCache_getResolvedString. run_M. now rewrite Hb. Qed.

Lemma setResolvedType_out_of_bounds type_index type (w : Runtime) :
  (static_cast_size_t type_index <? NumTypeIds (GetDexFile (dex_cache w))) = false ->
  DexCache_setResolvedType type_index type w = (Aborts CheckFailure, w).
Proof. intros Hb. unfold DexCache_setResolvedType. run_M. now rewrite Hb. Qed.

Lemma setResolvedString_out_of_bounds string_index string (w : Runtime) :
  (static_cast_size_t string_index <? NumStringIds (GetDexFile (dex_cache w))) = false ->
  DexCache_setResolvedString string_index string w = (Aborts CheckFailure, w).
Proof. intros Hb. unfold DexCache_setResolvedString. run_M. now rewrite Hb. Qed.

Lemma getResolvedType_in_bounds type_index (w : Runtime) :
  (static_cast_size_t type_index <? NumTypeIds (GetDexFile (dex_cache w))) = true ->
  DexCache_getResolvedType type_index w =
    (result (GetResolvedType (TypeIndex type_index)) (dex_cache w), w).
Proof.
  intros Hb. unfold DexCache_getResolvedType. run_M. rewrite Hb. simpl.
  unfold GetResolvedTypes.
  destruct (fst (GetObjectForIndex _ _)); simpl; now destruct w as [[] ?].
Qed.

Lemma getResolvedString_in_bounds string_index (w : Runtime) :
  (static_cast_size_t string_index <? NumStringIds (GetDexFile (dex_cache w))) = true ->
  DexCache_getResolvedString string_index w =
    (result (GetResolvedString (StringIndex string_index)) (dex_cache w), w).
Proof.
  intros Hb. unfold DexCache_getResolvedString. run_M. rewrite Hb. simpl.
  unfold GetStrings.
  destruct (fst (GetObjectForIndex _ _)); simpl; now destruct w as [[] ?].
Qed.

(** The whole effect of [DexCache_setResolvedString] on an index that passes
    the check. *)
Lemma setResolvedString_in_bounds string_index string (w : Runtime) :
  (static_cast_size_t string_index <? NumStringIds (GetDexFile (dex_cache w))) = true ->
  DexCache_setResolvedString string_index string w =
    (Returns tt,
     if IsNull string then w
     else with_dex_cache
            (state_after (SetResolvedString (StringIndex string_index) string)
               (dex_cache w)) w).
Proof.
  intros Hb. unfold DexCache_setResolvedString. run_M. rewrite Hb. simpl.
  unfold Decode. now destruct (IsNull string).
Qed.

(** The whole effect of [DexCache_setResolvedType] on an index that passes
    the check. *)
Lemma setResolvedType_in_bounds type_index type (w : Runtime) :
  (static_cast_size_t type_index <? NumTypeIds (GetDexFile (dex_cache w))) = true ->
  result (DexCache_setResolvedType type_index type) w = Returns tt /\
  dex_cache (state_after (DexCache_setResolvedType type_index type) w) =
    if is_canonical_type w type_index type
    then state_after (SetResolvedType (TypeIndex type_index) type) (dex_cache w)
    else dex_cache w.
Proof.
  intros Hb. unfold DexCache_setResolvedType, is_canonical_type. run_M.
  rewrite Hb. simpl. unfold Decode.
  destruct (IsNull type); simpl; [easy|].
  destruct (DescriptorEquals _ _); simpl; [|easy].
  unfold FindClassTable. destruct (class_table w) as [table|]; [|easy].
  destruct (TryInsert type table) as [existing table']. simpl.
  now destruct (existing =? type).
Qed.

End Bindings.

Section BindingClaims.
Context `{BuildConfig} `{ClassLinker}.

Lemma in_bounds_passes_check i count :
  is_jint i -> index_in_bounds i count = true ->
  (static_cast_size_t i <? count) = true.
Proof.
  intros [Hlo Hhi] Hb. unfold index_in_bounds in Hb.
  apply andb_true_iff in Hb as [Hnn Hlt]. apply Z.leb_le in Hnn.
  now rewrite static_cast_size_t_nonneg by lia.
Qed.

Lemma out_of_bounds_fails_check i count :
  is_jint i -> count <= 2 ^ 31 -> index_in_bounds i count = false ->
  (static_cast_size_t i <? count) = false.
Proof. intros Hi Hc Hb. now rewrite CHECK_LT_signed. Qed.

(** C7: each of the four bindings compares the index with the count the dex
    file declares (type ids for the type bindings, string ids for the string
    bindings) before anything else.  For an index outside [0, count) the
    call is a failed CHECK, with nothing read from or written to the cache
    or the class table; for an index inside, the CHECK passes: the getters
    return what the cache lookup gives and the setters return normally.
    (The counts are at most 2^31, as the ids of a dex file are.) *)
Theorem bindings_validate_index (w : Runtime) (idx : Z) (value : ObjRef) :
  is_jint idx ->
  NumTypeIds (GetDexFile (dex_cache w)) <= 2 ^ 31 ->
  NumStringIds (GetDexFile (dex_cache w)) <= 2 ^ 31 ->
  (index_in_bounds idx (NumTypeIds (GetDexFile (dex_cache w))) = false ->
     DexCache_getResolvedType idx w = (Aborts CheckFailure, w) /\
     DexCache_setResolvedType idx value w = (Aborts CheckFailure, w)) /\
  (index_in_bounds idx (NumStringIds (GetDexFile (dex_cache w))) = false ->
     DexCache_getResolvedString idx w = (Aborts CheckFailure, w) /\
     DexCache_setResolvedString idx value w = (Aborts CheckFailure, w)) /\
  (index_in_bounds idx (NumTypeIds (GetDexFile (dex_cache w))) = true ->
     DexCache_getResolvedType idx w =
       (result (GetResolvedType (TypeIndex idx)) (dex_cache w), w) /\
     result (DexCache_getResolvedType idx) w <> Aborts CheckFailure /\
     result (DexCache_setResolvedType idx value) w = Returns tt) /\
  (index_in_bounds idx (NumStringIds (GetDexFile (dex_cache w))) = true ->
     DexCache_getResolvedString idx w =
       (result (GetResolvedString (StringIndex idx)) (dex_cache w), w) /\
     result (DexCache_getResolvedString idx) w <> Aborts CheckFailure /\
     result (DexCache_setResolvedString idx value) w = Returns tt).
Proof.
  intros Hidx Htypes Hstrings. repeat apply conj.
  - intros Hb. apply out_of_bounds_fails_check in Hb; [|assumption..].
    split; [now apply getResolvedType_out_of_bounds
           |now apply setResolvedType_out_of_bounds].
  - intros Hb. apply out_of_bounds_fails_check in Hb; [|assumption..].
    split; [now apply getResolvedString_out_of_bounds
           |now apply setResolvedString_out_of_bounds].
  - intros Hb. apply in_bounds_passes_check in Hb; [|assumption].
    split; [now apply getResolvedType_in_bounds|]. split.
    + unfold result at 1. rewrite getResolvedType_in_bounds by assumption.
      apply cache_getter_result.
    + now apply setResolvedType_in_bounds.
  - intros Hb. apply in_bounds_passes_check in Hb; [|assumption].
    split; [now apply getResolvedString_in_bounds|]. split.
    + unfold result at 1. rewrite getResolvedString_in_bounds by assumption.
      apply cache_getter_result.
    + unfold result. now rewrite setResolvedString_in_bounds.
Qed.

(** C8: [DexCache_setResolvedType] installs the type in the cache exactly
    when the index passes the check, the type is non-null, its descriptor
    equals the descriptor the dex file gives for the index, a class table
    exists and the table's TryInsert returns the type itself; in every
    other case (null type, other descriptor, no class table, another class
    returned by the table) the dex cache is left as it was. *)
Theorem setResolvedType_installs_only_canonical (w : Runtime) (type_index : Z)
    (t : ObjRef) :
  let dex_file := GetDexFile (dex_cache w) in
  let expected := StringByTypeIdx dex_file (TypeIndex type_index) in
  let w' := state_after (DexCache_setResolvedType type_index t) w in
  dex_cache w' =
    (if (static_cast_size_t type_index <? NumTypeIds dex_file)
        && is_canonical_type w type_index t
     then state_after (SetResolvedType (TypeIndex type_index) t) (dex_cache w)
     else dex_cache w) /\
  (is_canonical_type w type_index t = true <->
     t <> nullptr /\ DescriptorEquals t expected = true /\
     exists table, FindClassTable w = Some table /\ fst (TryInsert t table) = t) /\
  (DescriptorEquals t expected = false -> dex_cache w' = dex_cache w) /\
  (FindClassTable w = None -> dex_cache w' = dex_cache w) /\
  (forall table, FindClassTable w = Some table -> fst (TryInsert t table) <> t ->
     dex_cache w' = dex_cache w).
Proof.
  intros dex_file expected w'.
  assert (Hmain : dex_cache w' =
    (if (static_cast_size_t type_index <? NumTypeIds dex_file)
        && is_canonical_type w type_index t
     then state_after (SetResolvedType (TypeIndex type_index) t) (dex_cache w)
     else dex_cache w)).
  { unfold w'. destruct (static_cast_size_t type_index <? NumTypeIds dex_file) eqn:Hb.
    - simpl. now apply setResolvedType_in_bounds.
    - simpl. unfold state_after.
      now rewrite setResolvedType_out_of_bounds. }
  assert (Hcanon : is_canonical_type w type_index t = true <->
     t <> nullptr /\ DescriptorEquals t expected = true /\
     exists table, FindClassTable w = Some table /\ fst (TryInsert t table) = t).
  { unfold is_canonical_type, IsNull. fold dex_file. fold expected. split.
    - intros Hc. apply andb_true_iff in Hc as [Hc Htable].
      apply andb_true_iff in Hc as [Hnull Hdesc].
      split; [|split; [assumption|]].
      + intros ->. discriminate Hnull.
      + destruct (FindClassTable w) as [table|]; [|discriminate].
        exists table. split; [reflexivity|]. now apply Z.eqb_eq.
    - intros (Hnn & Hdesc & table & Htable & Hsame).
      rewrite Hdesc, Htable. apply Z.eqb_eq in Hsame. rewrite Hsame.
      destruct (Z.eqb_spec t 0); [contradiction|reflexivity]. }
  split; [exact Hmain|]. split; [exact Hcanon|].
  assert (Hnot : is_canonical_type w type_index t = false -> dex_cache w' = dex_cache w).
  { intros Hf. rewrite Hmain, Hf. now rewrite andb_false_r. }
  split; [|split].
  - intros Hdesc. apply Hnot. apply not_true_is_false. intros Hc.
    apply Hcanon in Hc as (_ & Hd & _). congruence.
  - intros Hnone. apply Hnot. apply not_true_is_false. intros Hc.
    apply Hcanon in Hc as (_ & _ & table & Htable & _). congruence.
  - intros table Htable Hother. apply Hnot. apply not_true_is_false. intros Hc.
    apply Hcanon in Hc as (_ & _ & table' & Htable' & Hsame). congruence.
Qed.

(** C10: for an index in bounds, [DexCache_setResolvedString] with a null
    string and [DexCache_setResolvedType] with a null type return normally
    and leave the dex cache and the class table exactly as they were. *)
Theorem null_value_is_discarded (w : Runtime) (idx : Z) :
  is_jint idx ->
  (index_in_bounds idx (NumStringIds (GetDexFile (dex_cache w))) = true ->
     DexCache_setResolvedString idx nullptr w = (Returns tt, w)) /\
  (index_in_bounds idx (NumTypeIds (GetDexFile (dex_cache w))) = true ->
     DexCache_setResolvedType idx nullptr w = (Returns tt, w)).
Proof.
  intros Hidx. split; intros Hb; apply in_bounds_passes_check in Hb; try assumption.
  - now rewrite setResolvedString_in_bounds.
  - unfold DexCache_setResolvedType. run_M. now rewrite Hb.
Qed.

End BindingClaims.

Lemma bindings_validate_index_witness :
  is_jint (-1) /\
  NumTypeIds (GetDexFile (dex_cache sample_runtime)) <= 2 ^ 31 /\
  NumStringIds (GetDexFile (dex_cache sample_runtime)) <= 2 ^ 31 /\
  index_in_bounds (-1) (NumTypeIds (GetDexFile (dex_cache sample_runtime))) = false /\
  @DexCache_setResolvedType release_build sample_class_linker (-1) 7 sample_runtime
    = (Aborts CheckFailure, sample_runtime).
Proof.
  assert (Hjint : is_jint (-1)) by (unfold is_jint; lia).
  assert (Htypes : NumTypeIds (GetDexFile (dex_cache sample_runtime)) <= 2 ^ 31)
    by (simpl; lia).
  assert (Hstrings : NumStringIds (GetDexFile (dex_cache sample_runtime)) <= 2 ^ 31)
    by (simpl; lia).
  split; [exact Hjint|]. split; [exact Htypes|]. split; [exact Hstrings|].
  split; [reflexivity|].
  destruct (@bindings_validate_index release_build sample_class_linker
              sample_runtime (-1) 7 Hjint Htypes Hstrings) as (Hout & _).
  exact (proj2 (Hout eq_refl)).
Defined.

Lemma setResolvedType_installs_only_canonical_witness :
  @is_canonical_type debug_build sample_class_linker sample_runtime 3 7 = true /\
  @is_canonical_type debug_build sample_class_linker sample_runtime 3 8 = false /\
  dex_cache (state_after
               (@DexCache_setResolvedType debug_build sample_class_linker 3 8)
               sample_runtime)
    = dex_cache sample_runtime.
Proof.
  split; [reflexivity|]. split; [reflexivity|].
  destruct (@setResolvedType_installs_only_canonical debug_build sample_class_linker
              sample_runtime 3 8) as (_ & _ & _ & _ & Hother).
  apply (Hother [7]); [reflexivity|discriminate].
Defined.

Lemma null_value_is_discarded_witness :
  is_jint 3 /\
  index_in_bounds 3 (NumTypeIds (GetDexFile (dex_cache sample_runtime))) = true /\
  @DexCache_setResolvedType debug_build sample_class_linker 3 nullptr sample_runtime
    = (Returns tt, sample_runtime).
Proof.
  assert (Hjint : is_jint 3) by (unfold is_jint; lia).
  split; [exact Hjint|]. split; [reflexivity|].
  destruct (@null_value_is_discarded debug_build sample_class_linker
              sample_runtime 3 Hjint) as (_ & Htype).
  exact (Htype eq_refl).
Defined.

(** ** Worked runs on the sample dex cache *)

Example InvalidIndexForSlot_values :
  InvalidIndexForSlot 0 = 1 /\ InvalidIndexForSlot 1 = 0 /\ InvalidIndexForSlot 1023 = 0.
Proof. repeat split. Qed.

Example StringSlotIndex_values :
  StringSlotIndex 5 = 5 /\ StringSlotIndex 1029 = 5 /\ StringSlotIndex 2048 = 0.
Proof. repeat split. Qed.

Example fresh_cache_misses :
  @result _ _ (@GetResolvedString debug_build 0) sample_dex_cache = Returns nullptr /\
  @result _ _ (@GetResolvedString debug_build 1) sample_dex_cache = Returns nullptr /\
  @result _ _ (@GetResolvedType debug_build 1024) sample_dex_cache = Returns nullptr.
Proof. vm_compute. repeat split. Qed.

Example insert_then_lookup :
  let d := state_after (SetResolvedString 5 65) sample_dex_cache in
  @result _ _ (@GetResolvedString debug_build 5) d = Returns 65 /\
  @result _ _ (@GetResolvedString debug_build 1029) d = Returns nullptr.
Proof. vm_compute. repeat split. Qed.

Example aliasing_insert_evicts :
  let d := state_after (SetResolvedString 1029 66)
             (state_after (SetResolvedString 5 65) sample_dex_cache) in
  @result _ _ (@GetResolvedString debug_build 5) d = Returns nullptr /\
  @result _ _ (@GetResolvedString debug_build 1029) d = Returns 66.
Proof. vm_compute. repeat split. Qed.

Example insert_at_zero :
  let d := state_after (SetResolvedString 0 90) sample_dex_cache in
  @result _ _ (@GetResolvedString release_build 0) d = Returns 90.
Proof. vm_compute. reflexivity. Qed.

Example call_site_first_wins :
  race 1 [41; 42] sample_dex_cache
    = (Returns [41; 41], bind_call_site 1 41 sample_dex_cache) /\
  result (SetResolvedCallSite 9 41) sample_dex_cache
    = Aborts CheckFailure.
Proof. vm_compute. repeat split. Qed.

Example setResolvedType_sample_runs :
  let install := @DexCache_setResolvedType debug_build sample_class_linker 3 7 in
  let duplicate := @DexCache_setResolvedType debug_build sample_class_linker 3 8 in
  let mismatch := @DexCache_setResolvedType debug_build sample_class_linker 4 7 in
  @result _ _ (@DexCache_getResolvedType debug_build sample_class_linker 3)
    (state_after install sample_runtime) = Returns 7 /\
  @result _ _ (@DexCache_getResolvedType debug_build sample_class_linker 3)
    (state_after duplicate sample_runtime) = Returns nullptr /\
  state_after mismatch sample_runtime = sample_runtime /\
  @result _ _ (@DexCache_getResolvedType debug_build sample_class_linker 16)
    sample_runtime = Aborts CheckFailure /\
  @result _ _ (@DexCache_getResolvedType release_build sample_class_linker (-1))
    sample_runtime = Aborts CheckFailure.
Proof. vm_compute. repeat split. Qed.

(** * Further code of the repository *)

(** ** The register ids of MipsManagedRegister *)

Ltac split_tests :=
  repeat match goal with
    | |- context [?a <=? ?b] => destruct (Z.leb_spec a b)
    | |- context [?a <? ?b] => destruct (Z.ltb_spec a b)
    end.

Ltac mips_unfold :=
  unfold Mips.AsRegisterPairLow, Mips.AsRegisterPairHigh, Mips.AllocIdHigh,
    Mips.AllocIdLow, Mips.AllocId, Mips.RegId, Mips.and_then, Mips.or_else,
    Mips.AsOverlappingDRegisterLow, Mips.AsOverlappingDRegisterHigh,
    Mips.AsCoreRegister, Mips.AsFRegister, Mips.AsDRegister,
    Mips.FromCoreRegister, Mips.FromFRegister, Mips.FromDRegister,
    Mips.FromRegisterPair, Mips.FromRegId,
    Mips.IsCoreRegister, Mips.IsFRegister, Mips.IsDRegister,
    Mips.IsOverlappingDRegister, Mips.IsRegisterPair,
    Mips.IsValidManagedRegister, Mips.CHECK,
    Mips.kNumberOfRegIds, Mips.kNumberOfAllocIds, Mips.kNumberOfPairRegIds,
    Mips.kNumberOfCoreRegIds, Mips.kNumberOfFRegIds, Mips.kNumberOfDRegIds,
    Mips.kNumberOfOverlappingDRegIds, Mips.kNumberOfCoreAllocIds,
    Mips.kNumberOfFAllocIds, Mips.kNumberOfDAllocIds in *;
  unfold fmap, outcome_fmap, mbind, outcome_bind, mret, outcome_ret in *;
  simpl in *.

Ltac mips32_counts :=
  constructor; simpl; try lia;
  intros id Hid; apply Z.eqb_neq; unfold Mips.kNumberOfRegIds in Hid; simpl in Hid; lia.

Lemma mips32_counts_ok : @Mips.counts_ok Mips.mips32.
Proof. mips32_counts. Qed.

(** X1: a valid register id belongs to exactly one of the four kinds: for an
    id in [0, kNumberOfRegIds) the four tests return, and exactly one of them
    returns true. *)
Theorem Mips_register_kinds_partition `{Mips.Constants}
    (this : Mips.MipsManagedRegister) :
  Mips.counts_ok ->
  Mips.IsValidManagedRegister this = true ->
  exists c f d p,
    Mips.IsCoreRegister this = Returns c /\
    Mips.IsFRegister this = Returns f /\
    Mips.IsDRegister this = Returns d /\
    Mips.IsRegisterPair this = Returns p /\
    (Nat.b2n c + Nat.b2n f + Nat.b2n d + Nat.b2n p = 1)%nat.
Proof.
  intros [] Hvalid. destruct this as [id].
  mips_unfold. rewrite Hvalid. simpl.
  do 4 eexists. repeat (split; [reflexivity|]).
  apply andb_true_iff in Hvalid as [Hlo Hhi].
  apply Z.leb_le in Hlo. apply Z.ltb_lt in Hhi.
  split_tests; simpl; lia.
Qed.

Lemma Mips_register_kinds_partition_witness :
  @Mips.counts_ok Mips.mips32 /\
  @Mips.IsValidManagedRegister Mips.mips32 (Mips.MkReg 40) = true /\
  exists c f d p,
    @Mips.IsCoreRegister Mips.mips32 (Mips.MkReg 40) = Returns c /\
    @Mips.IsFRegister Mips.mips32 (Mips.MkReg 40) = Returns f /\
    @Mips.IsDRegister Mips.mips32 (Mips.MkReg 40) = Returns d /\
    @Mips.IsRegisterPair Mips.mips32 (Mips.MkReg 40) = Returns p /\
    (Nat.b2n c + Nat.b2n f + Nat.b2n d + Nat.b2n p = 1)%nat.
Proof.
  assert (Hok : @Mips.counts_ok Mips.mips32) by mips32_counts.
  split; [exact Hok|]. split; [reflexivity|].
  exact (@Mips_register_kinds_partition Mips.mips32 (Mips.MkReg 40) Hok eq_refl).
Defined.

(** X2: a register whose id is outside [0, kNumberOfRegIds) answers no
    question: every kind test, every conversion and every allocation id fails
    its CHECK, and [FromRegId] refuses the id. *)
Theorem Mips_invalid_register_aborts `{Mips.Constants}
    (this : Mips.MipsManagedRegister) :
  Mips.IsValidManagedRegister this = false ->
  Mips.IsCoreRegister this = Aborts CheckFailure /\
  Mips.IsFRegister this = Aborts CheckFailure /\
  Mips.IsDRegister this = Aborts CheckFailure /\
  Mips.IsOverlappingDRegister this = Aborts CheckFailure /\
  Mips.IsRegisterPair this = Aborts CheckFailure /\
  Mips.AsCoreRegister this = Aborts CheckFailure /\
  Mips.AsFRegister this = Aborts CheckFailure /\
  Mips.AsDRegister this = Aborts CheckFailure /\
  Mips.AsOverlappingDRegisterLow this = Aborts CheckFailure /\
  Mips.AsOverlappingDRegisterHigh this = Aborts CheckFailure /\
  Mips.AsRegisterPairLow this = Aborts CheckFailure /\
  Mips.AsRegisterPairHigh this = Aborts CheckFailure /\
  Mips.AllocId this = Aborts CheckFailure /\
  Mips.AllocIdLow this = Aborts CheckFailure /\
  Mips.AllocIdHigh this = Aborts CheckFailure /\
  Mips.FromRegId (Mips.id_ this) = Aborts CheckFailure.
Proof.
  intros Hinvalid. destruct this as [id].
  mips_unfold. rewrite Hinvalid. simpl. repeat split.
Qed.

Lemma Mips_invalid_register_aborts_witness :
  @Mips.IsValidManagedRegister Mips.mips32 (Mips.MkReg 92) = false /\
  @Mips.IsRegisterPair Mips.mips32 (Mips.MkReg 92) = Aborts CheckFailure.
Proof.
  split; [reflexivity|].
  apply (@Mips_invalid_register_aborts Mips.mips32 (Mips.MkReg 92) eq_refl).
Defined.

Ltac finish_reg :=
  simpl in *; intros;
  repeat match goal with
    | Hc : _ /\ _ |- _ => destruct Hc
    | Hc : Returns _ = Returns _ |- _ => injection Hc as Hc
    | Hc : Mips.MkReg _ = Mips.MkReg _ |- _ => injection Hc as Hc
    | Hc : Aborts _ = Returns _ |- _ => discriminate Hc
    | Hc : Returns _ = Aborts _ |- _ => discriminate Hc
    end;
  subst;
  try (exfalso; lia);
  try (repeat split; try lia; first [reflexivity | f_equal; lia | do 2 f_equal; lia]).

(** X3: register ids and registers of a kind correspond one to one: a
    conversion [As...Register] returns the number r exactly when r is a
    number of that kind and [From...Register r] is this register. *)
Theorem Mips_register_id_one_to_one `{Mips.Constants}
    (this : Mips.MipsManagedRegister) (r : Z) :
  Mips.counts_ok ->
  (Mips.AsCoreRegister this = Returns r <->
     0 <= r < Mips.kNumberOfCoreRegisters /\ Mips.FromCoreRegister r = Returns this) /\
  (Mips.AsFRegister this = Returns r <->
     0 <= r < Mips.kNumberOfFRegisters /\ Mips.FromFRegister r = Returns this) /\
  (Mips.AsDRegister this = Returns r <->
     0 <= r < Mips.kNumberOfDRegisters /\ Mips.FromDRegister r = Returns this).
Proof.
  intros []. destruct this as [id]. mips_unfold.
  repeat apply conj; split_tests; finish_reg.
Qed.

Lemma Mips_register_id_one_to_one_witness :
  @Mips.counts_ok Mips.mips32 /\
  (@Mips.AsFRegister Mips.mips32 (Mips.MkReg 35) = Returns 3 <->
     0 <= 3 < @Mips.kNumberOfFRegisters Mips.mips32 /\
     @Mips.FromFRegister Mips.mips32 3 = Returns (Mips.MkReg 35)).
Proof.
  assert (Hok : @Mips.counts_ok Mips.mips32) by mips32_counts.
  split; [exact Hok|].
  apply (@Mips_register_id_one_to_one Mips.mips32 (Mips.MkReg 35) 3 Hok).
Defined.

(** X4: a double register that overlaps single registers is a double
    register; its low and high halves are the single registers 2d and 2d+1
    of its number d, both of them registers [FromFRegister] accepts, and its
    low and high allocation ids are the register ids of these two. *)
Theorem Mips_overlapping_d_register `{Mips.Constants}
    (this : Mips.MipsManagedRegister) :
  Mips.counts_ok ->
  Mips.IsOverlappingDRegister this = Returns true ->
  exists d,
    0 <= d < Mips.kNumberOfOverlappingDRegisters /\
    Mips.IsDRegister this = Returns true /\
    Mips.AsDRegister this = Returns d /\
    Mips.AsOverlappingDRegisterLow this = Returns (d * 2) /\
    Mips.AsOverlappingDRegisterHigh this = Returns (d * 2 + 1) /\
    Mips.FromFRegister (d * 2)
      = Returns (Mips.MkReg (d * 2 + Mips.kNumberOfCoreRegisters)) /\
    Mips.FromFRegister (d * 2 + 1)
      = Returns (Mips.MkReg (d * 2 + 1 + Mips.kNumberOfCoreRegisters)) /\
    Mips.AllocIdLow this = Returns (d * 2 + Mips.kNumberOfCoreRegisters) /\
    Mips.AllocIdHigh this = Returns (d * 2 + 1 + Mips.kNumberOfCoreRegisters).
Proof.
  intros [] Hover. destruct this as [id].
  exists (id - Mips.kNumberOfCoreRegisters - Mips.kNumberOfFRegisters).
  mips_unfold.
  destruct ((0 <=? id) && (id <? _)) eqn:Hvalid; [|discriminate Hover].
  simpl in Hover. injection Hover as Hover.
  apply andb_true_iff in Hvalid as [Hlo Hhi].
  apply Z.leb_le in Hlo. apply Z.ltb_lt in Hhi.
  apply andb_true_iff in Hover as [Hlo' Hhi'].
  apply Z.leb_le in Hlo'. apply Z.ltb_lt in Hhi'.
  rewrite (no_register_invalid id) by lia. simpl.
  repeat apply conj; split_tests; finish_reg.
Qed.

Lemma Mips_overlapping_d_register_witness :
  @Mips.counts_ok Mips.mips32 /\
  @Mips.IsOverlappingDRegister Mips.mips32 (Mips.MkReg 67) = Returns true /\
  @Mips.AsOverlappingDRegisterHigh Mips.mips32 (Mips.MkReg 67) = Returns 7.
Proof.
  assert (Hok : @Mips.counts_ok Mips.mips32) by mips32_counts.
  split; [exact Hok|]. split; [reflexivity|].
  destruct (@Mips_overlapping_d_register Mips.mips32 (Mips.MkReg 67) Hok eq_refl)
    as (d & _ & _ & Hd & _ & Hhigh & _).
  injection Hd as <-. exact Hhigh.
Defined.

(** X5: each of the twelve register pairs is a register pair, and its low and
    high halves are the core registers 2v+2 and 2v+3 of its enumerator value
    v, except for A1_A2 (the Dalvik-style pair), whose halves are the core
    registers 5 and 6. *)
Theorem Mips_register_pair_halves `{Mips.Constants} (p : Mips.RegisterPair) :
  Mips.counts_ok ->
  Mips.names_a_pair p = true ->
  let low := match p with
             | Mips.A1_A2 => 5
             | _ => 2 * Mips.RegisterPair_value p + 2
             end in
  exists reg,
    Mips.FromRegisterPair p = Returns reg /\
    Mips.IsRegisterPair reg = Returns true /\
    Mips.AllocIdLow reg = Returns low /\
    Mips.AsRegisterPairLow reg = Returns low /\
    Mips.AsRegisterPairHigh reg = Returns (low + 1).
Proof.
  intros [] Hp low.
  exists (Mips.MkReg (Mips.RegisterPair_value p
            + (Mips.kNumberOfCoreRegisters + Mips.kNumberOfFRegisters
               + Mips.kNumberOfDRegisters))).
  destruct p; try discriminate Hp; subst low; mips_unfold;
    repeat (progress (split_tests; try (exfalso; lia); simpl));
    rewrite no_register_invalid by lia; simpl;
    repeat (progress (split_tests; try (exfalso; lia); simpl));
    repeat split; first [reflexivity | f_equal; lia].
Qed.

Lemma Mips_register_pair_halves_witness :
  @Mips.counts_ok Mips.mips32 /\
  Mips.names_a_pair Mips.S0_S1 = true /\
  @Mips.AsRegisterPairLow Mips.mips32 (Mips.MkReg 87) = Returns 16 /\
  @Mips.AsRegisterPairHigh Mips.mips32 (Mips.MkReg 87) = Returns 17.
Proof.
  assert (Hok : @Mips.counts_ok Mips.mips32) by mips32_counts.
  split; [exact Hok|]. split; [reflexivity|].
  destruct (@Mips_register_pair_halves Mips.mips32 Mips.S0_S1 Hok eq_refl)
    as (reg & Hreg & _ & _ & Hlow & Hhigh).
  injection Hreg as <-. split; [exact Hlow | exact Hhigh].
Defined.

(** X6: an allocation id exists exactly for the core registers, the single
    registers and the double registers that overlap no single register: for
    these [AllocId] returns the register id, which is below kNumberOfAllocIds;
    for every other register (overlapping double registers, register pairs,
    invalid ids) it fails its CHECK. *)
Theorem Mips_AllocId_domain `{Mips.Constants} (this : Mips.MipsManagedRegister) :
  Mips.counts_ok ->
  let id := Mips.id_ this in
  let first_d := Mips.kNumberOfCoreRegisters + Mips.kNumberOfFRegisters in
  (0 <= id < first_d
   \/ first_d + Mips.kNumberOfOverlappingDRegisters <= id
                < first_d + Mips.kNumberOfDRegisters ->
     Mips.AllocId this = Returns id /\ 0 <= id < Mips.kNumberOfAllocIds) /\
  (~ (0 <= id < first_d
      \/ first_d + Mips.kNumberOfOverlappingDRegisters <= id
                   < first_d + Mips.kNumberOfDRegisters) ->
     Mips.AllocId this = Aborts CheckFailure).
Proof.
  intros []. destruct this as [id]. mips_unfold.
  split; intros Hdom; split_tests; simpl; split_tests; simpl;
    try (exfalso; lia); repeat split; try lia.
Qed.

Lemma Mips_AllocId_domain_witness :
  @Mips.counts_ok Mips.mips32 /\
  @Mips.AllocId Mips.mips32 (Mips.MkReg 40) = Returns 40 /\
  @Mips.AllocId Mips.mips32 (Mips.MkReg 70) = Aborts CheckFailure.
Proof.
  assert (Hok : @Mips.counts_ok Mips.mips32) by mips32_counts.
  split; [exact Hok|].
  split.
  - apply (@Mips_AllocId_domain Mips.mips32 (Mips.MkReg 40) Hok).
    left. simpl. lia.
  - apply (@Mips_AllocId_domain Mips.mips32 (Mips.MkReg 70) Hok).
    simpl. lia.
Defined.

(** X7: [FromRegisterPair] does not reject the sentinel kNoRegisterPair (its
    CHECK_NE is commented out): it returns the register just below the pairs,
    which is not a register pair, whereas the other sentinel,
    kNumberOfRegisterPairs, is refused by [FromRegId]. *)
Theorem Mips_FromRegisterPair_sentinels `{Mips.Constants} :
  Mips.counts_ok ->
  let last := Mips.kNumberOfCoreRegisters + Mips.kNumberOfFRegisters
              + Mips.kNumberOfDRegisters - 1 in
  Mips.FromRegisterPair Mips.kNoRegisterPair = Returns (Mips.MkReg last) /\
  Mips.IsRegisterPair (Mips.MkReg last) = Returns false /\
  Mips.AsRegisterPairLow (Mips.MkReg last) = Aborts CheckFailure /\
  Mips.FromRegisterPair Mips.kNumberOfRegisterPairs = Aborts CheckFailure.
Proof.
  intros [] last. subst last. mips_unfold.
  repeat apply conj; split_tests; try (exfalso; lia); simpl;
    first [reflexivity | f_equal; f_equal; lia | idtac].
Qed.

Lemma Mips_FromRegisterPair_sentinels_witness :
  @Mips.counts_ok Mips.mips32 /\
  @Mips.FromRegisterPair Mips.mips32 Mips.kNoRegisterPair = Returns (Mips.MkReg 79) /\
  @Mips.IsDRegister Mips.mips32 (Mips.MkReg 79) = Returns true.
Proof.
  assert (Hok : @Mips.counts_ok Mips.mips32) by mips32_counts.
  split; [exact Hok|]. split; [|reflexivity].
  apply (@Mips_FromRegisterPair_sentinels Mips.mips32 Hok).
Defined.

(** ** The loop regression test *)

Lemma loop_unroll {S R} fuel (cond : S -> bool) (body : S -> Main.turn S R) s :
  Main.loop (Datatypes.S fuel) cond body s =
    if cond s then
      match body s with
      | Main.Next s' => Main.loop fuel cond body s'
      | Main.Return r => Some (Main.Return r)
      end
    else Some (Main.Next s).
Proof. reflexivity. Qed.

(** More fuel does not change the result of a loop that ends. *)
Lemma loop_fuel_mono {S R} (cond : S -> bool) (body : S -> Main.turn S R) fuel :
  forall s r fuel', (fuel <= fuel')%nat ->
    Main.loop fuel cond body s = Some r -> Main.loop fuel' cond body s = Some r.
Proof.
  induction fuel as [|fuel IH]; intros s r fuel' Hle Hrun; [discriminate|].
  destruct fuel' as [|fuel']; [lia|].
  rewrite loop_unroll in *. destruct (cond s); [|assumption].
  destruct (body s); [|assumption].
  apply IH; [lia|assumption].
Qed.

Lemma wrap_small h z :
  0 < h -> - h <= z < h -> (z + h) mod (2 * h) - h = z.
Proof. intros Hh Hz. rewrite Z.mod_small by lia. lia. Qed.

Lemma wrap_mod h z :
  0 < h -> ((z + h) mod (2 * h) - h) mod (2 * h) = z mod (2 * h).
Proof.
  intros Hh. rewrite Zminus_mod_idemp_l. f_equal. lia.
Qed.

Lemma wrap_range h z :
  0 < h -> - h <= (z + h) mod (2 * h) - h < h.
Proof. intros Hh. pose proof (Z.mod_pos_bound (z + h) (2 * h)). lia. Qed.

Lemma int_wrap_small z : Main.is_int z -> Main.int_wrap z = z.
Proof.
  intros Hz. unfold Main.int_wrap. change (2 ^ 32) with (2 * 2 ^ 31).
  apply wrap_small; [lia|exact Hz].
Qed.

Lemma int_wrap_is_int z : Main.is_int (Main.int_wrap z).
Proof.
  unfold Main.int_wrap, Main.is_int. change (2 ^ 32) with (2 * 2 ^ 31).
  apply wrap_range. lia.
Qed.

Lemma int_wrap_mod z : Main.int_wrap z mod 2 ^ 32 = z mod 2 ^ 32.
Proof.
  unfold Main.int_wrap. change (2 ^ 32) with (2 * 2 ^ 31). apply wrap_mod. lia.
Qed.

Lemma int_wrap_cong a b : a mod 2 ^ 32 = b mod 2 ^ 32 -> Main.int_wrap a = Main.int_wrap b.
Proof.
  intros Hab. unfold Main.int_wrap.
  rewrite <- (Zplus_mod_idemp_l a), <- (Zplus_mod_idemp_l b), Hab. reflexivity.
Qed.

Lemma long_wrap_small z : Main.is_long z -> Main.long_wrap z = z.
Proof.
  intros Hz. unfold Main.long_wrap. change (2 ^ 64) with (2 * 2 ^ 63).
  apply wrap_small; [lia|exact Hz].
Qed.

Lemma long_wrap_mod z : Main.long_wrap z mod 2 ^ 64 = z mod 2 ^ 64.
Proof.
  unfold Main.long_wrap. change (2 ^ 64) with (2 * 2 ^ 63). apply wrap_mod. lia.
Qed.

Lemma long_wrap_cong a b :
  a mod 2 ^ 64 = b mod 2 ^ 64 -> Main.long_wrap a = Main.long_wrap b.
Proof.
  intros Hab. unfold Main.long_wrap.
  rewrite <- (Zplus_mod_idemp_l a), <- (Zplus_mod_idemp_l b), Hab. reflexivity.
Qed.

Lemma iadd_small a b : Main.is_int (a + b) -> Main.iadd a b = a + b.
Proof. apply int_wrap_small. Qed.

(** The loop of [earlyExitFirst] from the state (i, i). *)
Lemma earlyExitFirst_loop m fuel :
  forall i, 0 <= i <= 10 -> (Z.to_nat (10 - i) < fuel)%nat ->
    Main.loop fuel (fun s => fst s <? 10)
      (fun s => let i := fst s in let k := snd s in
                if i =? m then Main.Return k
                else Main.Next (Main.iadd i 1, Main.iadd k 1))
      (i, i)
    = Some (if (i <=? m) && (m <? 10) then Main.Return m else Main.Next (10, 10)).
Proof.
  induction fuel as [|fuel IH]; intros i Hi Hfuel; [lia|].
  rewrite loop_unroll. cbn [fst snd].
  destruct (Z.ltb_spec i 10) as [Hlt|Hge].
  - destruct (Z.eqb_spec i m) as [->|Hne].
    + rewrite Z.leb_refl. simpl.
      destruct (Z.ltb_spec m 10); [reflexivity|lia].
    + rewrite iadd_small by (unfold Main.is_int; lia).
      rewrite IH by lia.
      destruct (Z.leb_spec (i + 1) m), (Z.leb_spec i m); try lia; reflexivity.
  - assert (i = 10) as -> by lia.
    destruct (Z.leb_spec 10 m), (Z.ltb_spec m 10); try lia; reflexivity.
Qed.

(** X8: [earlyExitFirst(m)] returns m for m in [0, 10) and 10 for every other
    m; eleven turns of the loop are enough. *)
Theorem earlyExitFirst_closed_form (fuel : nat) (m : Z) :
  (11 <= fuel)%nat ->
  Main.earlyExitFirst fuel m = Some (if (0 <=? m) && (m <? 10) then m else 10).
Proof.
  intros Hfuel. unfold Main.earlyExitFirst.
  rewrite earlyExitFirst_loop by lia.
  now destruct ((0 <=? m) && (m <? 10)).
Qed.

Lemma earlyExitFirst_closed_form_witness :
  (11 <= 11)%nat /\ Main.earlyExitFirst 11 7 = Some 7.
Proof.
  split; [lia|]. apply (earlyExitFirst_closed_form 11 7). lia.
Defined.

(** The loop of [earlyExitLast] from the state (i, i). *)
Lemma earlyExitLast_loop m fuel :
  forall i, 0 <= i <= 10 -> (Z.to_nat (10 - i) < fuel)%nat ->
    Main.loop fuel (fun s => fst s <? 10)
      (fun s => let i := fst s in let k := Main.iadd (snd s) 1 in
                if i =? m then Main.Return k
                else Main.Next (Main.iadd i 1, k))
      (i, i)
    = Some (if (i <=? m) && (m <? 10) then Main.Return (m + 1) else Main.Next (10, 10)).
Proof.
  induction fuel as [|fuel IH]; intros i Hi Hfuel; [lia|].
  rewrite loop_unroll. cbn [fst snd].
  destruct (Z.ltb_spec i 10) as [Hlt|Hge].
  - rewrite iadd_small by (unfold Main.is_int; lia).
    destruct (Z.eqb_spec i m) as [->|Hne].
    + rewrite Z.leb_refl. simpl.
      destruct (Z.ltb_spec m 10); [reflexivity|lia].
    + rewrite IH by lia.
      destruct (Z.leb_spec (i + 1) m), (Z.leb_spec i m); try lia; reflexivity.
  - assert (i = 10) as -> by lia.
    destruct (Z.leb_spec 10 m), (Z.ltb_spec m 10); try lia; reflexivity.
Qed.

(** X9: [earlyExitLast(m)] returns m+1 for m in [0, 10) and 10 for every other
    m; eleven turns of the loop are enough. *)
Theorem earlyExitLast_closed_form (fuel : nat) (m : Z) :
  (11 <= fuel)%nat ->
  Main.earlyExitLast fuel m = Some (if (0 <=? m) && (m <? 10) then m + 1 else 10).
Proof.
  intros Hfuel. unfold Main.earlyExitLast.
  rewrite earlyExitLast_loop by lia.
  now destruct ((0 <=? m) && (m <? 10)).
Qed.

Lemma earlyExitLast_closed_form_witness :
  (11 <= 12)%nat /\ Main.earlyExitLast 12 9 = Some 10.
Proof.
  split; [lia|]. apply (earlyExitLast_closed_form 12 9). lia.
Defined.

(** A loop that counts [i] up to [n] and applies [f] to the other variable
    is the iteration of [f]. *)
Lemma counting_loop (f : Z -> Z) n fuel :
  forall i x, 0 <= i <= n -> n < 2 ^ 31 -> (Z.to_nat (n - i) < fuel)%nat ->
    Main.loop (R := Z) fuel (fun s => fst s <? n)
      (fun s => Main.Next (Main.iadd (fst s) 1, f (snd s)))
      (i, x)
    = Some (Main.Next (n, Nat.iter (Z.to_nat (n - i)) f x)).
Proof.
  induction fuel as [|fuel IH]; intros i x Hi Hn Hfuel; [lia|].
  rewrite loop_unroll. cbn [fst snd].
  destruct (Z.ltb_spec i n) as [Hlt|Hge].
  - rewrite iadd_small by (unfold Main.is_int; lia).
    rewrite IH by lia.
    replace (Z.to_nat (n - i)) with (Datatypes.S (Z.to_nat (n - (i + 1)))) by lia.
    now rewrite Nat.iter_succ_r.
  - assert (i = n) as -> by lia. now rewrite Z.sub_diag.
Qed.

Lemma quot_bound x c B :
  0 < c -> 0 < B -> - (B * c) < x < B * c -> - B < Z.quot x c < B.
Proof.
  intros Hc HB Hx.
  destruct (Z.le_gt_cases 0 x) as [Hnn|Hneg].
  - rewrite Z.quot_div_nonneg by lia.
    pose proof (Z.div_pos x c Hnn Hc).
    assert (x / c < B) by (apply Z.div_lt_upper_bound; lia). lia.
  - replace x with (- (- x)) by lia.
    rewrite Z.quot_opp_l by lia.
    rewrite Z.quot_div_nonneg by lia.
    assert (0 <= (- x) / c) by (apply Z.div_pos; lia).
    assert ((- x) / c < B) by (apply Z.div_lt_upper_bound; lia). lia.
Qed.

(** X10: [geoIntDivLastValue(x)] is 0 for every int x, the constant the
    checker comment of the method expects after loop optimization. *)
Theorem geoIntDivLastValue_is_zero (fuel : nat) (x : Z) :
  (3 <= fuel)%nat -> Main.is_int x ->
  Main.geoIntDivLastValue fuel x = Some 0.
Proof.
  intros Hfuel Hx. unfold Main.geoIntDivLastValue.
  rewrite (counting_loop (fun y => Main.idiv y 1081788608)) by (simpl; lia).
  simpl. f_equal. unfold Main.idiv.
  assert (H1 : - 2 < Z.quot x 1081788608 < 2).
  { apply (quot_bound x 1081788608 2); unfold Main.is_int in Hx; lia. }
  rewrite (int_wrap_small (Z.quot x 1081788608)) by (unfold Main.is_int; lia).
  assert (H2 : - 1 < Z.quot (Z.quot x 1081788608) 1081788608 < 1).
  { apply (quot_bound _ 1081788608 1); lia. }
  replace (Z.quot (Z.quot x 1081788608) 1081788608) with 0 by lia.
  reflexivity.
Qed.

Lemma geoIntDivLastValue_is_zero_witness :
  (3 <= 3)%nat /\ Main.is_int (-2147483648) /\
  Main.geoIntDivLastValue 3 (-2147483648) = Some 0.
Proof.
  assert (Hx : Main.is_int (-2147483648)) by (unfold Main.is_int; lia).
  split; [lia|]. split; [exact Hx|].
  apply (geoIntDivLastValue_is_zero 3 (-2147483648)); [lia|exact Hx].
Defined.

(** X11: [geoIntMulLastValue(x)] is the int product of x and -194211840, the
    constant the checker comment of the method expects after loop
    optimization. *)
Theorem geoIntMulLastValue_closed_form (fuel : nat) (x : Z) :
  (3 <= fuel)%nat ->
  Main.geoIntMulLastValue fuel x = Some (Main.imul x (-194211840)).
Proof.
  intros Hfuel. unfold Main.geoIntMulLastValue.
  rewrite (counting_loop (fun y => Main.imul y 1081788608)) by (simpl; lia).
  simpl. f_equal. unfold Main.imul. apply int_wrap_cong.
  rewrite <- Z.mul_mod_idemp_l by lia.
  rewrite int_wrap_mod.
  rewrite Z.mul_mod_idemp_l by lia.
  rewrite <- Z.mul_assoc.
  rewrite <- (Z.mul_mod_idemp_r x (1081788608 * 1081788608)) by lia.
  rewrite <- (Z.mul_mod_idemp_r x (-194211840)) by lia.
  reflexivity.
Qed.

Lemma geoIntMulLastValue_closed_form_witness :
  (3 <= 3)%nat /\ Main.geoIntMulLastValue 3 2147483647 = Some 194211840.
Proof.
  split; [lia|]. apply (geoIntMulLastValue_closed_form 3 2147483647). lia.
Defined.

Lemma ldiv_zero : Main.ldiv 0 1081788608 = 0.
Proof. reflexivity. Qed.

(** X12: [geoLongDivLastValue(x)] is 0 for every long x, the constant the
    checker comment of the method expects after loop optimization. *)
Theorem geoLongDivLastValue_is_zero (fuel : nat) (x : Z) :
  (11 <= fuel)%nat -> Main.is_long x ->
  Main.geoLongDivLastValue fuel x = Some 0.
Proof.
  intros Hfuel Hx. unfold Main.geoLongDivLastValue.
  rewrite (counting_loop (fun y => Main.ldiv y 1081788608)) by (simpl; lia).
  cbn [Main.returning snd]. f_equal.
  change (Z.to_nat (10 - 0)) with (7 + 3)%nat.
  rewrite Nat.iter_add.
  assert (H3 : Nat.iter 3 (fun y => Main.ldiv y 1081788608) x = 0).
  { cbn [Nat.iter nat_rect]. unfold Main.ldiv.
    assert (H1 : - 2 ^ 34 < Z.quot x 1081788608 < 2 ^ 34).
    { apply (quot_bound x 1081788608 (2 ^ 34)); unfold Main.is_long in Hx; lia. }
    rewrite (long_wrap_small (Z.quot x 1081788608)) by (unfold Main.is_long; lia).
    assert (H2 : - 16 < Z.quot (Z.quot x 1081788608) 1081788608 < 16).
    { apply (quot_bound _ 1081788608 16); lia. }
    rewrite (long_wrap_small (Z.quot (Z.quot x 1081788608) 1081788608))
      by (unfold Main.is_long; lia).
    assert (H0 : - 1 < Z.quot (Z.quot (Z.quot x 1081788608) 1081788608) 1081788608 < 1).
    { apply (quot_bound _ 1081788608 1); lia. }
    replace (Z.quot (Z.quot (Z.quot x 1081788608) 1081788608) 1081788608) with 0 by lia.
    reflexivity. }
  rewrite H3. cbn [Nat.iter nat_rect]. now rewrite !ldiv_zero.
Qed.

Lemma geoLongDivLastValue_is_zero_witness :
  (11 <= 11)%nat /\ Main.is_long 9223372036854775807 /\
  Main.geoLongDivLastValue 11 9223372036854775807 = Some 0.
Proof.
  assert (Hx : Main.is_long 9223372036854775807) by (unfold Main.is_long; lia).
  split; [lia|]. split; [exact Hx|].
  apply (geoLongDivLastValue_is_zero 11 9223372036854775807); [lia|exact Hx].
Defined.

Lemma iter_lmul_mod n x :
  Nat.iter n (fun y => Main.lmul y 1081788608) x mod 2 ^ 64
  = (x * 1081788608 ^ Z.of_nat n) mod 2 ^ 64.
Proof.
  induction n as [|n IH].
  - simpl. now rewrite Z.mul_1_r.
  - rewrite Nat.iter_succ. unfold Main.lmul at 1. rewrite long_wrap_mod.
    rewrite <- Z.mul_mod_idemp_l, IH, Z.mul_mod_idemp_l by lia.
    f_equal. rewrite Nat2Z.inj_succ, Z.pow_succ_r by lia. lia.
Qed.

(** X13: [geoLongMulLastValue(x)] is the long product of x and
    -8070450532247928832, the constant the checker comment of the method
    expects after loop optimization. *)
Theorem geoLongMulLastValue_closed_form (fuel : nat) (x : Z) :
  (11 <= fuel)%nat ->
  Main.geoLongMulLastValue fuel x = Some (Main.lmul x (-8070450532247928832)).
Proof.
  intros Hfuel. unfold Main.geoLongMulLastValue.
  rewrite (counting_loop (fun y => Main.lmul y 1081788608)) by (simpl; lia).
  cbn [Main.returning snd]. f_equal.
  change (Z.to_nat (10 - 0)) with (Datatypes.S 9).
  rewrite Nat.iter_succ. unfold Main.lmul at 1. unfold Main.lmul at 2.
  apply long_wrap_cong.
  rewrite <- Z.mul_mod_idemp_l, iter_lmul_mod, Z.mul_mod_idemp_l by lia.
  rewrite <- Z.mul_assoc.
  rewrite <- (Z.mul_mod_idemp_r x (1081788608 ^ Z.of_nat 9 * 1081788608)) by lia.
  rewrite <- (Z.mul_mod_idemp_r x (-8070450532247928832)) by lia.
  reflexivity.
Qed.

Lemma geoLongMulLastValue_closed_form_witness :
  (11 <= 11)%nat /\ Main.geoLongMulLastValue 11 2 = Some 2305843009213693952.
Proof.
  split; [lia|]. apply (geoLongMulLastValue_closed_form 11 2). lia.
Defined.

(** ** The MIPS handler of mul-long/2addr *)

Lemma low_high_mod low k :
  0 <= low < 2 ^ 32 ->
  (low + 2 ^ 32 * k) mod 2 ^ 64 = low + 2 ^ 32 * (k mod 2 ^ 32).
Proof.
  intros Hlow. symmetry.
  apply Z.mod_unique with (q := k / 2 ^ 32).
  - pose proof (Z.mod_pos_bound k (2 ^ 32)). lia.
  - pose proof (Z.div_mod k (2 ^ 32)). lia.
Qed.

Lemma add3_mod p h q n :
  n <> 0 -> ((p mod n + h mod n) mod n + q mod n) mod n = (p + h + q) mod n.
Proof.
  intros Hn. rewrite <- (Z.add_mod p h) by assumption.
  now rewrite <- Z.add_mod by assumption.
Qed.

(** X14: the multiply sequence of the handler leaves in v0 and v1 the low and
    the high word of the 64-bit product of the two operands held in a0/a1 and
    a2/a3, in both variants of the code and whatever a pre-R6 [mul] leaves in
    HI and LO; read as Java longs, the result is the long product. *)
Theorem op_mul_long_2addr_product (MIPS32REVGE6 : bool) (junk : Z * Z)
    (s : MterpMips.regs) :
  MterpMips.is_word (s MterpMips.a0) -> MterpMips.is_word (s MterpMips.a1) ->
  MterpMips.is_word (s MterpMips.a2) -> MterpMips.is_word (s MterpMips.a3) ->
  let s' := MterpMips.run junk (MterpMips.op_mul_long_2addr MIPS32REVGE6) s in
  let vA := MterpMips.pair64 (s MterpMips.a0) (s MterpMips.a1) in
  let vB := MterpMips.pair64 (s MterpMips.a2) (s MterpMips.a3) in
  MterpMips.is_word (s' MterpMips.v0) /\
  MterpMips.is_word (s' MterpMips.v1) /\
  MterpMips.pair64 (s' MterpMips.v0) (s' MterpMips.v1) = (vA * vB) mod 2 ^ 64 /\
  Main.long_wrap (MterpMips.pair64 (s' MterpMips.v0) (s' MterpMips.v1))
    = Main.lmul (Main.long_wrap vA) (Main.long_wrap vB).
Proof.
  intros H0 H1 H2 H3 s' vA vB.
  set (x0 := s MterpMips.a0) in *. set (x1 := s MterpMips.a1) in *.
  set (x2 := s MterpMips.a2) in *. set (x3 := s MterpMips.a3) in *.
  assert (Hv0 : s' MterpMips.v0 = (x2 * x0) mod 2 ^ 32)
    by (destruct MIPS32REVGE6; reflexivity).
  assert (Hv1 : s' MterpMips.v1 =
            (((x3 * x0) mod 2 ^ 32 + (x2 * x0 / 2 ^ 32) mod 2 ^ 32) mod 2 ^ 32
             + (x2 * x1) mod 2 ^ 32) mod 2 ^ 32)
    by (destruct MIPS32REVGE6; reflexivity).
  assert (Hprod : MterpMips.pair64 (s' MterpMips.v0) (s' MterpMips.v1)
                  = (vA * vB) mod 2 ^ 64).
  { rewrite Hv0, Hv1. unfold MterpMips.pair64 at 1.
    rewrite add3_mod by lia.
    rewrite <- low_high_mod by (apply Z.mod_pos_bound; lia).
    unfold vA, vB, MterpMips.pair64.
    pose proof (Z.div_mod (x2 * x0) (2 ^ 32) ltac:(lia)) as Hdm.
    replace ((x0 + 2 ^ 32 * x1) * (x2 + 2 ^ 32 * x3))
      with ((x2 * x0) mod 2 ^ 32
            + 2 ^ 32 * (x3 * x0 + x2 * x0 / 2 ^ 32 + x2 * x1)
            + (x1 * x3) * 2 ^ 64).
    - now rewrite Z.mod_add by lia.
    - change (2 ^ 64) with (2 ^ 32 * 2 ^ 32). lia. }
  split; [rewrite Hv0; apply Z.mod_pos_bound; lia|].
  split; [rewrite Hv1; apply Z.mod_pos_bound; lia|].
  split; [exact Hprod|].
  rewrite Hprod. unfold Main.lmul. apply long_wrap_cong.
  rewrite Z.mod_mod by lia.
  rewrite (Z.mul_mod (Main.long_wrap vA) (Main.long_wrap vB)) by lia.
  rewrite !long_wrap_mod.
  now rewrite <- Z.mul_mod by lia.
Qed.

Lemma op_mul_long_2addr_product_witness :
  let s : MterpMips.regs := fun r =>
    match r with
    | MterpMips.a0 => 4294967295 | MterpMips.a1 => 4294967295
    | MterpMips.a2 => 3 | _ => 0
    end in
  MterpMips.is_word (s MterpMips.a0) /\ MterpMips.is_word (s MterpMips.a1) /\
  MterpMips.is_word (s MterpMips.a2) /\ MterpMips.is_word (s MterpMips.a3) /\
  Main.long_wrap
    (MterpMips.pair64
       (MterpMips.run (7, 9) (MterpMips.op_mul_long_2addr false) s MterpMips.v0)
       (MterpMips.run (7, 9) (MterpMips.op_mul_long_2addr false) s MterpMips.v1))
  = Main.lmul (Main.long_wrap (MterpMips.pair64 4294967295 4294967295))
              (Main.long_wrap (MterpMips.pair64 3 0)).
Proof.
  intros s.
  assert (H0 : MterpMips.is_word (s MterpMips.a0)) by (unfold MterpMips.is_word; simpl; lia).
  assert (H1 : MterpMips.is_word (s MterpMips.a1)) by (unfold MterpMips.is_word; simpl; lia).
  assert (H2 : MterpMips.is_word (s MterpMips.a2)) by (unfold MterpMips.is_word; simpl; lia).
  assert (H3 : MterpMips.is_word (s MterpMips.a3)) by (unfold MterpMips.is_word; simpl; lia).
  repeat (split; [assumption|]).
  apply (op_mul_long_2addr_product false (7, 9) s H0 H1 H2 H3).
Defined.


(** ** More on the slot pair and the bindings *)

(** X15: [DexCachePair::Initialize] on a non-empty array writes only its first
    element, which becomes [{null, 1}]; running it again changes nothing; and
    on the element it wrote a lookup of index 0 leaves through the index test
    in every build, whereas on a zero-filled element the same lookup reaches
    the DCHECK on the object. *)
Theorem Initialize_guards_slot_zero `{BuildConfig} (dex_cache : list DexCachePair) :
  (0 < length dex_cache)%nat ->
  let initialized := state_after Initialize dex_cache in
  length initialized = length dex_cache /\
  initialized !!! 0%nat = MkDexCachePair nullptr 1 /\
  (forall i, i <> 0%nat -> initialized !!! i = dex_cache !!! i) /\
  state_after Initialize initialized = initialized /\
  GetObjectForIndex 0 (initialized !!! 0%nat)
    = (Returns nullptr, initialized !!! 0%nat) /\
  result (GetObjectForIndex 0) (MkDexCachePair nullptr 0)
    = if kEnableDChecks then Aborts DCheckFailure else Returns nullptr.
Proof.
  intros Hlen initialized.
  assert (Hzero : initialized !!! 0%nat = MkDexCachePair nullptr 1).
  { unfold initialized, state_after, Initialize, modify. simpl.
    now apply list_lookup_total_insert_eq. }
  split.
  { unfold initialized, state_after, Initialize, modify. simpl. apply length_insert. }
  split; [exact Hzero|].
  split.
  { intros i Hi. unfold initialized, state_after, Initialize, modify. simpl.
    apply list_lookup_total_insert_ne. congruence. }
  split.
  { unfold initialized, state_after, Initialize, modify. simpl.
    apply list_insert_insert_eq. }
  split.
  { rewrite Hzero. now apply GetObjectForIndex_miss. }
  unfold result. now rewrite GetObjectForIndex_null_object.
Qed.

Lemma Initialize_guards_slot_zero_witness :
  let cache := [MkDexCachePair nullptr 0; MkDexCachePair 9 1] in
  (0 < length cache)%nat /\
  state_after Initialize cache = [MkDexCachePair nullptr 1; MkDexCachePair 9 1] /\
  @GetObjectForIndex debug_build 0 (state_after Initialize cache !!! 0%nat)
    = (Returns nullptr, MkDexCachePair nullptr 1).
Proof.
  intros cache. split; [simpl; lia|]. split; [reflexivity|].
  apply (@Initialize_guards_slot_zero debug_build cache). simpl. lia.
Defined.

(** X16: whatever the slot holds, [GetObjectForIndex] leaves it unchanged and
    never returns a wrong object: a non-null result is the stored object and
    its stored index is the queried one.  The call fails only the DCHECK, and
    only in a build with DCHECKs on a null object under the queried index. *)
Theorem GetObjectForIndex_never_wrong `{BuildConfig} (p : DexCachePair) (idx : Z) :
  state_after (GetObjectForIndex idx) p = p /\
  (forall v, result (GetObjectForIndex idx) p = Returns v ->
     v <> nullptr -> v = object p /\ index p = idx) /\
  (forall f, result (GetObjectForIndex idx) p = Aborts f <->
     f = DCheckFailure /\ kEnableDChecks = true /\
     index p = idx /\ object p = nullptr).
Proof.
  split; [apply GetObjectForIndex_state|].
  destruct (Z.eq_dec (index p) idx) as [Hidx|Hidx];
    [destruct (Z.eq_dec (object p) nullptr) as [Hobj|Hobj]|].
  - unfold result. rewrite GetObjectForIndex_null_object by assumption. simpl.
    destruct kEnableDChecks; split.
    + discriminate.
    + intros f. split; [intros [= <-]; easy | intros (-> & _); reflexivity].
    + intros v [= <-]. contradiction.
    + intros f. split; [discriminate | intros (_ & Hd & _); discriminate Hd].
  - unfold result. rewrite GetObjectForIndex_hit by assumption. simpl. split.
    + intros v [= <-] _. easy.
    + intros f. split; [discriminate | intros (_ & _ & _ & Hn); contradiction].
  - unfold result. rewrite GetObjectForIndex_miss by assumption. simpl. split.
    + intros v [= <-]. contradiction.
    + intros f. split; [discriminate | intros (_ & _ & Hi & _); contradiction].
Qed.

(** X17: [DexCache_setResolvedType] hands the type to the class table exactly
    when the index passes the check, the type is non-null and its descriptor
    is the one of the index: the table is then the one [TryInsert] leaves,
    also when the table answers with another class and nothing is installed;
    in every other case the class table is untouched. *)
Theorem setResolvedType_class_table `{BuildConfig} `{ClassLinker} (w : Runtime)
    (type_index : Z) (t : ObjRef) :
  let dex_file := GetDexFile (dex_cache w) in
  class_table (state_after (DexCache_setResolvedType type_index t) w) =
    if (static_cast_size_t type_index <? NumTypeIds dex_file)
       && negb (IsNull t)
       && DescriptorEquals t (StringByTypeIdx dex_file (TypeIndex type_index))
    then match class_table w with
         | Some table => Some (snd (TryInsert t table))
         | None => None
         end
    else class_table w.
Proof.
  intros dex_file. unfold DexCache_setResolvedType. run_M. fold dex_file.
  destruct (static_cast_size_t type_index <? NumTypeIds dex_file); [|reflexivity].
  simpl. unfold Decode.
  destruct (IsNull t); [reflexivity|]. simpl.
  destruct (DescriptorEquals _ _); [|reflexivity].
  unfold FindClassTable. destruct (class_table w) as [table|] eqn:Htable;
    [|simpl; exact Htable].
  destruct (TryInsert t table) as [existing table']. simpl.
  now destruct (existing =? t).
Qed.

Lemma setResolvedType_class_table_witness :
  class_table (state_after
                 (@DexCache_setResolvedType debug_build sample_class_linker 4 9)
                 sample_runtime) = Some [9; 7].
Proof.
  rewrite (@setResolvedType_class_table debug_build sample_class_linker
             sample_runtime 4 9).
  reflexivity.
Defined.

(** X18: the bounds check of the bindings compares the index as an unsigned
    word of the pointer width: for a jint index it passes exactly when the
    index is in [0, count), or the index is negative and count exceeds the
    index plus 2^width; so with counts of at most 2^width - 2^31 every
    negative index is refused. *)
Theorem binding_check_exact `{BuildConfig} (idx count : Z) :
  is_jint idx ->
  let width := PointerBits kRuntimePointerSize in
  (static_cast_size_t idx <? count) =
    index_in_bounds idx count || ((idx <? 0) && (idx + 2 ^ width <? count)) /\
  (count <= 2 ^ width - 2 ^ 31 ->
     (static_cast_size_t idx <? count) = index_in_bounds idx count).
Proof.
  intros [Hlo Hhi] width.
  assert (Hw : 2 ^ 32 <= 2 ^ width)
    by (unfold width; destruct kRuntimePointerSize; simpl; lia).
  assert (Hcast : static_cast_size_t idx = if idx <? 0 then idx + 2 ^ width else idx).
  { unfold static_cast_size_t. fold width.
    destruct (Z.ltb_spec idx 0).
    - symmetry. apply Z.mod_unique with (q := -1); lia.
    - apply Z.mod_small. lia. }
  rewrite Hcast. unfold index_in_bounds.
  split; [|intros Hc];
    destruct (Z.ltb_spec idx 0), (Z.leb_spec 0 idx); try lia; simpl;
    try reflexivity.
Qed.

Lemma binding_check_exact_witness :
  is_jint (-2) /\
  (@static_cast_size_t release_build (-2) <? 4294967295) = true /\
  @index_in_bounds (-2) 4294967295 = false.
Proof.
  assert (Hj : is_jint (-2)) by (unfold is_jint; lia).
  split; [exact Hj|]. split; [|reflexivity].
  rewrite (proj1 (@binding_check_exact release_build (-2) 4294967295 Hj)).
  reflexivity.
Defined.
